(** * InvUQ: empirical posterior sampling ([PosteriorSampling.py])

    A shallow embedding of the three functions of [PosteriorSampling.py]
    ([sample_ecdf], [compute_default_tol], [EmpiricalPosteriorSampling])
    and the properties of the tolerance-banded resampling they implement.

    Modelling choices.
    - Array entries are exact rationals ([Q]); the comparisons and the
      arithmetic of the source are the rational ones (rounding of IEEE
      doubles is not modelled).
    - A one-dimensional array is a [list Q]; a two-dimensional array is its
      shape together with its cell function, as numpy keeps a shape next to
      a buffer.
    - The process-wide generator behind [np.random.choice] and the console
      are the two components of an explicit [world]; exceptions are values
      ([Raise]); the source is written in the resulting state and exception
      monad [M]. *)

From Stdlib Require Import QArith Qabs Lqa Lia String DecimalString.
From stdpp Require Import base list.

Local Open Scope nat_scope.

(** ** Exceptions, the world, and the monad *)

Inductive exn : Type :=
| IndexError
| ValueError.

Inductive outcome (A : Type) : Type :=
| Ok (a : A)
| Raise (e : exn).
Arguments Ok {A} a.
Arguments Raise {A} e.

(** The generator is a tape of raw draws with a read position; the console
    is the list of lines printed so far. *)
Record world : Type := World {
  tape : nat -> nat;
  pos : nat;
  stdout : list string
}.

Definition M (A : Type) : Type := world -> outcome A * world.

Definition ret {A} (a : A) : M A := fun s => (Ok a, s).

Definition raise {A} (e : exn) : M A := fun s => (Raise e, s).

Definition bind {A B} (m : M A) (k : A -> M B) : M B :=
  fun s =>
    match m s with
    | (Ok a, s') => k a s'
    | (Raise e, s') => (Raise e, s')
    end.

Notation "x <- m ;; k" := (bind m (fun x => k))
  (at level 100, m at next level, right associativity).

(** [for i in l: acc = body i acc] *)
Fixpoint for_each {A} (l : list nat) (body : nat -> A -> M A) (acc : A) : M A :=
  match l with
  | [] => ret acc
  | i :: l' => acc' <- body i acc ;; for_each l' body acc'
  end.

(** [for i in range(n)] *)
Definition for_range {A} (n : nat) (body : nat -> A -> M A) (acc : A) : M A :=
  for_each (seq 0 n) body acc.

(** ** Python and numpy primitives used by the source *)

(** [str(i)] for a non-negative integer. *)
Definition str (n : nat) : string := NilEmpty.string_of_uint (Nat.to_uint n).

(** [print(msg)] *)
Definition print (msg : string) : M unit :=
  fun s => (Ok tt, World (tape s) (pos s) (stdout s ++ [msg])).

(** [np.random.choice(a, 1)] for an integer [a]: one index below [a], read
    off the tape; numpy raises [ValueError] when [a] is not positive. The
    one-element array it returns is identified with its element. *)
Definition np_random_choice (a : nat) : M nat :=
  if a =? 0 then raise ValueError
  else fun s => (Ok (tape s (pos s) mod a), World (tape s) (S (pos s)) (stdout s)).

(** [np.zeros(n)] *)
Definition np_zeros (n : nat) : list Q := replicate n 0%Q.

(** [a[i]] on a one-dimensional array, [0 <= i]. *)
Definition getitem (a : list Q) (i : nat) : M Q :=
  match a !! i with
  | Some x => ret x
  | None => raise IndexError
  end.

(** [a[i] = x] on a one-dimensional array. *)
Definition setitem (a : list Q) (i : nat) (x : Q) : M (list Q) :=
  if i <? length a then ret (<[i:=x]> a) else raise IndexError.

(** [a >= x] and [a <= x], array against scalar. *)
Definition ge_scalar (a : list Q) (x : Q) : list bool :=
  (fun y => Qle_bool x y) <$> a.

Definition le_scalar (a : list Q) (x : Q) : list bool :=
  (fun y => Qle_bool y x) <$> a.

(** [np.logical_and(m1, m2)] *)
Definition logical_and (m1 m2 : list bool) : list bool := zip_with andb m1 m2.

(** [np.where(mask)] on a one-dimensional mask: the indices of its true
    entries, ascending. *)
Definition np_where (mask : list bool) : list nat :=
  filter (fun i => mask !! i = Some true) (seq 0 (length mask)).

(** [a[INDS]] with an integer index array. *)
Fixpoint fancy (a : list Q) (inds : list nat) : M (list Q) :=
  match inds with
  | [] => ret []
  | i :: inds' => x <- getitem a i ;; xs <- fancy a inds' ;; ret (x :: xs)
  end.

(** Two-dimensional arrays. *)
Record ndarray2 : Type := Ndarray2 {
  nrows : nat;
  ncols : nat;
  cell : nat -> nat -> Q
}.

(** The array whose rows are the given lists (missing entries read 0). *)
Definition of_rows (n p : nat) (rows : list (list Q)) : ndarray2 :=
  Ndarray2 n p (fun r c => nth c (nth r rows []) 0%Q).

(** The rows of an array, as lists. *)
Definition to_rows (m : ndarray2) : list (list Q) :=
  (fun r => (fun c => cell m r c) <$> seq 0 (ncols m)) <$> seq 0 (nrows m).

(** Column [c] of [m], top to bottom. *)
Definition column (m : ndarray2) (c : nat) : list Q :=
  (fun r => cell m r c) <$> seq 0 (nrows m).

(** [m[:,i]] *)
Definition getcol (m : ndarray2) (i : nat) : M (list Q) :=
  if i <? ncols m then ret (column m i) else raise IndexError.

(** [m[:,i] = v]: [v] has one entry per row, or a single entry that is
    broadcast. *)
Definition setcol (m : ndarray2) (i : nat) (v : list Q) : M ndarray2 :=
  if negb (i <? ncols m) then raise IndexError
  else if length v =? nrows m then
    ret (Ndarray2 (nrows m) (ncols m)
           (fun r c => if c =? i then nth r v 0%Q else cell m r c))
  else if length v =? 1 then
    ret (Ndarray2 (nrows m) (ncols m)
           (fun r c => if c =? i then nth 0 v 0%Q else cell m r c))
  else raise ValueError.

(** [np.zeros(a.shape)] *)
Definition np_zeros_like_shape (a : ndarray2) : ndarray2 :=
  Ndarray2 (nrows a) (ncols a) (fun _ _ => 0%Q).

Definition qmin (a b : Q) : Q := if Qle_bool a b then a else b.
Definition qmax (a b : Q) : Q := if Qle_bool a b then b else a.

(** Minimum and maximum of a non-empty list. *)
Definition list_min (x : Q) (l : list Q) : Q := fold_left qmin l x.
Definition list_max (x : Q) (l : list Q) : Q := fold_left qmax l x.

Definition col_min (m : ndarray2) (c : nat) : Q :=
  list_min (cell m 0 c) ((fun r => cell m r c) <$> seq 1 (nrows m - 1)).

Definition col_max (m : ndarray2) (c : nat) : Q :=
  list_max (cell m 0 c) ((fun r => cell m r c) <$> seq 1 (nrows m - 1)).

(** [np.min(m, axis=0)] and [np.max(m, axis=0)]: a reduction without
    identity over an axis of length zero raises [ValueError]. *)
Definition np_min_axis0 (m : ndarray2) : M (list Q) :=
  if nrows m =? 0 then raise ValueError
  else ret (col_min m <$> seq 0 (ncols m)).

Definition np_max_axis0 (m : ndarray2) : M (list Q) :=
  if nrows m =? 0 then raise ValueError
  else ret (col_max m <$> seq 0 (ncols m)).

(** ** The source functions *)

(** Line 22 of [sample_ecdf]: the indices of the test-set predictions in the
    closed window around the observed prediction [v]. *)
Definition candidates (v W : Q) (p_pred_test : list Q) : list nat :=
  np_where (logical_and (ge_scalar p_pred_test (v - W)%Q)
                        (le_scalar p_pred_test (v + W)%Q)).

(** Lines 22-31 of [sample_ecdf]: the work done for realization [i], whose
    observed prediction is [v] (the specification's WindowedResampler).
    [csamples.shape[0] is 0] compares a Python integer with the shared small
    integer 0, so it holds exactly when [csamples] is empty. *)
Definition WindowedResampler (i : nat) (v : Q) (p_pred_test p_true_test : list Q)
    (W : Q) : M Q :=
  let INDS := candidates v W p_pred_test in
  csamples <- fancy p_true_test INDS ;;
  if length csamples =? 0 then
    _ <- print ("Data realization " ++ str i ++ ": No test set samples available") ;;
    sample_ind <- np_random_choice (length p_true_test) ;;
    getitem p_true_test sample_ind
  else
    sample_ind <- np_random_choice (length csamples) ;;
    getitem csamples sample_ind.

(** The body of the loop of [sample_ecdf], lines 22-33. *)
Definition sample_ecdf_body (p_pred_obs p_pred_test p_true_test : list Q) (W : Q)
    (i : nat) (postsamples : list Q) : M (list Q) :=
  v <- getitem p_pred_obs i ;;
  sample <- WindowedResampler i v p_pred_test p_true_test W ;;
  setitem postsamples i sample.

Definition sample_ecdf (p_pred_obs p_pred_test p_true_test : list Q) (W : Q)
    : M (list Q) :=
  let postsamples := np_zeros (length p_pred_obs) in
  for_range (length p_pred_obs)
    (sample_ecdf_body p_pred_obs p_pred_test p_true_test W) postsamples.

(** [rangefraction = 1/20], a true division. *)
Definition rangefraction : Q := 1 # 20.

Definition compute_default_tol (p_pred_test : ndarray2) : M (list Q) :=
  pmin <- np_min_axis0 p_pred_test ;;
  pmax <- np_max_axis0 p_pred_test ;;
  ret (Qmult rangefraction <$> zip_with Qminus pmax pmin).

(** The body of the loop of [EmpiricalPosteriorSampling], lines 87-88; the
    right-hand side of the assignment is evaluated before the store. *)
Definition sampling_body (p_pred_obs p_pred_test p_true_test : ndarray2)
    (Ws : list Q) (i : nat) (postsamples : ndarray2) : M ndarray2 :=
  _ <- print ("Sampling parameter " ++ str i) ;;
  obs_i <- getcol p_pred_obs i ;;
  pred_i <- getcol p_pred_test i ;;
  true_i <- getcol p_true_test i ;;
  W <- getitem Ws i ;;
  col <- sample_ecdf obs_i pred_i true_i W ;;
  setcol postsamples i col.

Definition EmpiricalPosteriorSampling (p_pred_obs p_pred_test p_true_test : ndarray2)
    (Ws : option (list Q)) : M ndarray2 :=
  Ws <- match Ws with
        | None => compute_default_tol p_pred_test
        | Some Ws => ret Ws
        end ;;
  let postsamples := np_zeros_like_shape p_pred_obs in
  for_range (length Ws)
    (sampling_body p_pred_obs p_pred_test p_true_test Ws) postsamples.

(** ** Concrete runs *)

Definition world0 (draws : list nat) : world :=
  World (fun k => nth k draws 0) 0 [].

Definition ex_pred : list Q := [1; 2; 3; 4; 5]%Q.
Definition ex_true : list Q := [10; 20; 30; 40; 50]%Q.

(** Two observed realizations of two parameters against five prior
    realizations. *)
Definition ex_obs2 : ndarray2 := of_rows 2 2 [[3; 100]; [1; 2]]%Q.
Definition ex_pred2 : ndarray2 :=
  of_rows 5 2 [[1; 1]; [2; 2]; [3; 3]; [4; 4]; [5; 5]]%Q.
Definition ex_true2 : ndarray2 :=
  of_rows 5 2 [[10; 11]; [20; 21]; [30; 31]; [40; 41]; [50; 51]]%Q.


(** ** Seeding and single-parameter runs *)

(** Two worlds are seeded alike when their generators are at the same
    position of the same tape; what the console shows plays no part. *)
Definition same_rng (s t : world) : Prop :=
  pos s = pos t /\ forall k, tape s k = tape t k.

(** A computation is deterministic in the generator when worlds seeded
    alike give it the same outcome and leave it seeded alike. *)
Definition respects {A} (m : M A) : Prop :=
  forall s t, same_rng s t ->
    fst (m s) = fst (m t) /\ same_rng (snd (m s)) (snd (m t)).

(** The world after [k] more draws have been taken from the generator. *)
Definition skip (k : nat) (s : world) : world :=
  World (tape s) (pos s + k) (stdout s).


(** [lo] is the least, [hi] the greatest entry of column [p] of [m]. *)
Definition is_col_min (m : ndarray2) (p : nat) (lo : Q) : Prop :=
  (exists r, r < nrows m /\ cell m r p = lo) /\
  forall r, r < nrows m -> (lo <= cell m r p)%Q.

Definition is_col_max (m : ndarray2) (p : nat) (hi : Q) : Prop :=
  (exists r, r < nrows m /\ cell m r p = hi) /\
  forall r, r < nrows m -> (cell m r p <= hi)%Q.


(** The number of columns the loop of [EmpiricalPosteriorSampling] visits:
    [len(Ws)], which for the default tolerances is the number of columns of
    the predicted-test matrix. *)
Definition n_tol (p_pred_test : ndarray2) (Ws : option (list Q)) : nat :=
  match Ws with
  | Some l => length l
  | None => ncols p_pred_test
  end.


(** Inputs whose shapes disagree: two observed parameters against a single
    test-set column, five predicted against six true realizations. *)
Definition mis_obs : ndarray2 := of_rows 1 2 [[3; 3]]%Q.
Definition mis_pred : ndarray2 := of_rows 5 1 [[1]; [2]; [3]; [4]; [5]]%Q.
Definition mis_true : ndarray2 :=
  of_rows 6 1 [[10]; [20]; [30]; [40]; [50]; [60]]%Q.





(** ** Diagnostics *)

(** The line printed at line 26 for realization [i]. *)
Definition no_match_notice (i : nat) : string :=
  "Data realization " ++ str i ++ ": No test set samples available".

(** The line printed at line 87 for parameter [i]. *)
Definition sampling_header (i : nat) : string := "Sampling parameter " ++ str i.

(** The realizations of [obs], in order, that have no candidate. *)
Definition unmatched (obs pred : list Q) (W : Q) : list nat :=
  filter (fun i => candidates (nth i obs 0%Q) W pred = []) (seq 0 (length obs)).

(** ** [PlottingUtils.py]: the subplot numbers *)

(** Line 25 (and 97): [np.floor(nparams/2+1).astype(np.int)], the number of
    rows of the two-column grid of subplots. ([nrows] in the source; the
    name is that of the array field here.) *)
Definition subplot_nrows (nparams : nat) : nat := nparams / 2 + 1.

(** Line 29 (and 101): the number handed to [plt.subplot] for parameter
    [i]. *)
Definition pltnum (rows i : nat) : nat := rows * 100 + 20 + 1 + i.

(** Line 72: the subplot that gets the axis labels in [plot_predictions]. *)
Definition predictions_label_num (rows : nat) : nat :=
  rows * 100 + 20 + rows * 2 - 1.

(** Line 124: the subplot that gets the axis label in [plot_posteriors]. *)
Definition posteriors_label_num (rows nparams : nat) : nat :=
  rows * 100 + 20 + nparams.

(** How matplotlib reads the single integer given to [plt.subplot]: it must
    have three digits, which are the rows, the columns and the index of the
    cell, and the index must name a cell of the grid, counted from 1;
    otherwise [plt.subplot] raises [ValueError] ([None] here). *)
Definition subplot_spec (n : nat) : option (nat * nat * nat) :=
  if (100 <=? n) && (n <=? 999) then
    let rows := n / 100 in
    let cols := (n / 10) mod 10 in
    let num := n mod 10 in
    if (1 <=? num) && (num <=? rows * cols) then Some (rows, cols, num)
    else None
  else None.

(** ** [PriorFalsification.py]: the data of the scree plot *)

(** [np.cumsum] of a one-dimensional array. *)
Fixpoint cumsum_from (acc : Q) (a : list Q) : list Q :=
  match a with
  | [] => []
  | x :: a' => (acc + x)%Q :: cumsum_from (acc + x)%Q a'
  end.

Definition np_cumsum (a : list Q) : list Q := cumsum_from 0%Q a.

(** [a[:n]] for an integer [n] of either sign. *)
Definition slice_to (a : list Q) (n : Z) : list Q :=
  if (n <? 0)%Z then take (Z.to_nat (Z.of_nat (length a) + n)) a
  else take (Z.to_nat n) a.

(** [list(range(0, n))] for an integer [n] of either sign. *)
Definition py_range (n : Z) : list Z :=
  (fun k => Z.of_nat k) <$> seq 0 (Z.to_nat n).

(** The attributes of a [PriorFalsification] object that [plot_scree]
    reads. *)
Record PriorFalsification : Type := {
  var : list Q;
  cumvar : list Q;
  npc : nat
}.

(** Lines 41-43 of [__init__]: [var] is the [explained_variance_ratio_] of
    the fitted PCA and [npc] the number of columns of the prior scores; both
    come from scikit-learn and are arguments here. *)
Definition init_attributes (explained_variance_ratio : list Q)
    (Sprior_shape1 : nat) : PriorFalsification :=
  {| var := explained_variance_ratio;
     cumvar := np_cumsum explained_variance_ratio;
     npc := Sprior_shape1 |}.

(** Lines 82-88 of [plot_scree]: the abscissae [pc] and the ordinates
    [variance] handed to [plt.plot]. *)
Definition scree_n (self : PriorFalsification) (npcs : option Z) : Z :=
  match npcs with
  | None => Z.of_nat (npc self)
  | Some n => n
  end.

Definition scree_pc (self : PriorFalsification) (npcs : option Z) : list Z :=
  py_range (scree_n self npcs + 1).

Definition scree_variance (self : PriorFalsification) (npcs : option Z) : list Q :=
  [0%Q] ++ slice_to (cumvar self) (scree_n self npcs).

(** The sum of a list of rationals. *)
Definition qsum (a : list Q) : Q := foldr Qplus 0%Q a.

(** ** Running the monad *)

Lemma bind_Ok {A B} (m : M A) (k : A -> M B) s a s' :
  m s = (Ok a, s') -> bind m k s = k a s'.
Proof. intros H. unfold bind. by rewrite H. Qed.

Lemma bind_Raise {A B} (m : M A) (k : A -> M B) s e s' :
  m s = (Raise e, s') -> bind m k s = (Raise e, s').
Proof. intros H. unfold bind. by rewrite H. Qed.

Lemma bind_inv_Ok {A B} (m : M A) (k : A -> M B) s b s2 :
  bind m k s = (Ok b, s2) ->
  exists a s1, m s = (Ok a, s1) /\ k a s1 = (Ok b, s2).
Proof.
  unfold bind. destruct (m s) as [[a|e] s1]; [eauto | discriminate].
Qed.

Lemma getitem_Ok (a : list Q) i x s :
  a !! i = Some x -> getitem a i s = (Ok x, s).
Proof. intros H. unfold getitem. by rewrite H. Qed.

Lemma getitem_inv (a : list Q) i x s s' :
  getitem a i s = (Ok x, s') -> a !! i = Some x /\ s' = s.
Proof.
  unfold getitem. destruct (a !! i); unfold ret, raise; intros H; by inversion H.
Qed.

Lemma np_random_choice_Ok a s :
  0 < a ->
  np_random_choice a s =
    (Ok (tape s (pos s) mod a), World (tape s) (S (pos s)) (stdout s)).
Proof.
  intros H. unfold np_random_choice.
  destruct (Nat.eqb_spec a 0) as [->|_]; [lia | done].
Qed.

Lemma np_random_choice_inv a k s s' :
  np_random_choice a s = (Ok k, s') ->
  k < a /\ k = tape s (pos s) mod a /\
  s' = World (tape s) (S (pos s)) (stdout s).
Proof.
  unfold np_random_choice. destruct (Nat.eqb_spec a 0) as [->|Hne].
  - discriminate.
  - intros H. inversion H; subst. split; [|done].
    by apply Nat.mod_upper_bound.
Qed.

(** ** The candidate index set *)

Lemma np_where_spec (mask : list bool) i :
  i ∈ np_where mask <-> mask !! i = Some true.
Proof.
  unfold np_where. rewrite list_elem_of_filter, elem_of_seq. split.
  - by intros [H _].
  - intros H. split; [done|]. apply lookup_lt_Some in H. lia.
Qed.

Lemma candidates_spec v W (pred : list Q) i :
  i ∈ candidates v W pred <->
  exists x, pred !! i = Some x /\ (v - W <= x)%Q /\ (x <= v + W)%Q.
Proof.
  unfold candidates, logical_and, ge_scalar, le_scalar.
  rewrite np_where_spec, lookup_zip_with, !list_lookup_fmap.
  destruct (pred !! i) as [x|]; simpl.
  - split.
    + intros H. exists x. split; [done|]. rewrite <- !Qle_bool_iff.
      destruct (Qle_bool (v - W) x), (Qle_bool x (v + W)); by inversion H.
    + intros (y & Hy & H1 & H2). inversion Hy; subst.
      apply Qle_bool_iff in H1, H2. by rewrite H1, H2.
  - split; [done | by intros (x & ? & _)].
Qed.

Lemma candidates_lt v W (pred : list Q) i :
  i ∈ candidates v W pred -> i < length pred.
Proof.
  rewrite candidates_spec. intros (x & H & _). by apply lookup_lt_Some in H.
Qed.

(** ** Integer-array indexing *)

Lemma fancy_inv (a : list Q) inds l s s' :
  fancy a inds s = (Ok l, s') ->
  s' = s /\ length l = length inds /\
  forall k x, l !! k = Some x ->
    exists i, inds !! k = Some i /\ a !! i = Some x.
Proof.
  revert l s s'. induction inds as [|i inds IH]; intros l s s' H; simpl in H.
  - inversion H; subst. split; [done|]. split; [done|]. intros k x Hk. by destruct k.
  - apply bind_inv_Ok in H as (x & s1 & Hx & H).
    apply getitem_inv in Hx as [Hx ->].
    apply bind_inv_Ok in H as (xs & s2 & Hxs & H).
    apply IH in Hxs as (-> & Hlen & Hxs).
    inversion H; subst. split; [done|]. split; [simpl; lia|].
    intros [|k] y Hy; simpl in *.
    + inversion Hy; subst. eauto.
    + eauto.
Qed.

Lemma fancy_total (a : list Q) inds s :
  (forall i, i ∈ inds -> i < length a) ->
  exists l, fancy a inds s = (Ok l, s).
Proof.
  induction inds as [|i inds IH]; intros H; simpl.
  - by exists [].
  - destruct (lookup_lt_is_Some_2 a i) as [x Hx].
    { apply H. left. }
    destruct IH as [xs Hxs].
    { intros j Hj. apply H. by right. }
    exists (x :: xs).
    erewrite bind_Ok by (by apply getitem_Ok).
    by erewrite bind_Ok by exact Hxs.
Qed.

(** The console and the generator are untouched by indexing, also when it
    raises. *)
Lemma fancy_world (a : list Q) inds s : snd (fancy a inds s) = s.
Proof.
  induction inds as [|i inds IH]; simpl; [done|].
  unfold bind, getitem. destruct (a !! i); simpl; [|done].
  destruct (fancy a inds s) as [[xs|e] s1] eqn:E; simpl in *; by subst.
Qed.

(** ** The per-realization step *)

(** On its non-fallback path the step returns the true value of a candidate;
    with no more predictions than true values it does return. *)
Lemma WindowedResampler_window_inv i v (pred truth : list Q) W s sample s' :
  candidates v W pred <> [] ->
  WindowedResampler i v pred truth W s = (Ok sample, s') ->
  exists j, j ∈ candidates v W pred /\ truth !! j = Some sample /\
    s' = World (tape s) (S (pos s)) (stdout s).
Proof.
  intros Hne H. unfold WindowedResampler in H.
  apply bind_inv_Ok in H as (cs & s1 & Hcs & H).
  apply fancy_inv in Hcs as (-> & Hlen & Hcs).
  destruct (Nat.eqb_spec (length cs) 0) as [H0|H0].
  { destruct (candidates v W pred); [done | simpl in Hlen; lia]. }
  apply bind_inv_Ok in H as (k & s2 & Hk & H).
  apply np_random_choice_inv in Hk as (_ & _ & ->).
  apply getitem_inv in H as [H ->].
  apply Hcs in H as (j & Hj & Htruth).
  exists j. split; [|done]. apply list_elem_of_lookup. eauto.
Qed.

Lemma WindowedResampler_window_total i v (pred truth : list Q) W s :
  candidates v W pred <> [] ->
  length pred <= length truth ->
  exists sample, WindowedResampler i v pred truth W s =
    (Ok sample, World (tape s) (S (pos s)) (stdout s)).
Proof.
  intros Hne Hlen. unfold WindowedResampler.
  destruct (fancy_total truth (candidates v W pred) s) as [cs Hcs].
  { intros j Hj. apply candidates_lt in Hj. lia. }
  erewrite bind_Ok by exact Hcs.
  apply fancy_inv in Hcs as (_ & Hl & _).
  destruct (Nat.eqb_spec (length cs) 0) as [H0|H0].
  { destruct (candidates v W pred); [done | simpl in Hl; lia]. }
  erewrite bind_Ok by (apply np_random_choice_Ok; lia). simpl.
  destruct (lookup_lt_is_Some_2 cs (tape s (pos s) mod length cs)) as [x Hx].
  { apply Nat.mod_upper_bound. lia. }
  exists x. by apply getitem_Ok.
Qed.

(** With no candidate the step prints its notice, draws over the whole true
    column and returns what it finds there. *)
Lemma WindowedResampler_fallback i v (pred truth : list Q) W s :
  truth <> [] ->
  candidates v W pred = [] ->
  exists sample,
    truth !! (tape s (pos s) mod length truth) = Some sample /\
    WindowedResampler i v pred truth W s =
      (Ok sample,
       World (tape s) (S (pos s))
         (stdout s ++
          [("Data realization " ++ str i ++ ": No test set samples available")%string])).
Proof.
  intros Hne Hc. unfold WindowedResampler. rewrite Hc. simpl.
  assert (0 < length truth) as Hlen by (destruct truth; [done | simpl; lia]).
  destruct (lookup_lt_is_Some_2 truth (tape s (pos s) mod length truth)) as [x Hx].
  { by apply Nat.mod_upper_bound, Nat.neq_0_lt_0. }
  exists x. split; [done|].
  unfold bind at 1. simpl. unfold bind at 1. simpl.
  erewrite bind_Ok by (by apply np_random_choice_Ok). simpl.
  by apply getitem_Ok.
Qed.

(** C1. For every observed prediction v, columns pred and truth, and
    tolerance W (non-negative or not), a run of the per-realization step
    that has candidates, i.e. takes the non-fallback path, can only return
    truth[j] for an index j with pred[j] in the closed interval
    [v-W, v+W]; and it does return whenever pred is no longer than truth. *)
Theorem C1_nonfallback_sample_in_window i v (pred truth : list Q) W s :
  candidates v W pred <> [] ->
  (forall sample s',
     WindowedResampler i v pred truth W s = (Ok sample, s') ->
     exists j x, truth !! j = Some sample /\ pred !! j = Some x /\
       (v - W <= x)%Q /\ (x <= v + W)%Q) /\
  (length pred <= length truth ->
   exists sample s', WindowedResampler i v pred truth W s = (Ok sample, s')).
Proof.
  intros Hne. split.
  - intros sample s' H.
    destruct (WindowedResampler_window_inv _ _ _ _ _ _ _ _ Hne H)
      as (j & Hj & Ht & _).
    apply candidates_spec in Hj as (x & Hx & Hlo & Hhi). by exists j, x.
  - intros Hlen.
    destruct (WindowedResampler_window_total i v pred truth W s Hne Hlen)
      as [x Hx]. eauto.
Qed.

Lemma C1_witness :
  (forall sample s',
     WindowedResampler 0 3%Q ex_pred ex_true (1 # 2) (world0 [4]) = (Ok sample, s') ->
     exists j x, ex_true !! j = Some sample /\ ex_pred !! j = Some x /\
       (3 - (1 # 2) <= x)%Q /\ (x <= 3 + (1 # 2))%Q) /\
  (length ex_pred <= length ex_true ->
   exists sample s',
     WindowedResampler 0 3%Q ex_pred ex_true (1 # 2) (world0 [4]) = (Ok sample, s')).
Proof.
  apply (C1_nonfallback_sample_in_window 0 3%Q ex_pred ex_true (1 # 2) (world0 [4])).
  vm_compute. discriminate.
Defined.

(** C2. When the candidate index set is empty and the true column is not,
    the per-realization step does not raise: it returns truth[j] for an
    index j of the whole true column (the one the generator draws). *)
Theorem C2_fallback_returns_truth_member i v (pred truth : list Q) W s :
  truth <> [] ->
  candidates v W pred = [] ->
  exists j sample s',
    WindowedResampler i v pred truth W s = (Ok sample, s') /\
    j < length truth /\ truth !! j = Some sample.
Proof.
  intros Hne Hc.
  destruct (WindowedResampler_fallback i v pred truth W s Hne Hc) as (x & Hx & H).
  eexists _, x, _. split; [exact H|]. split; [|exact Hx].
  by apply lookup_lt_Some in Hx.
Qed.

Lemma C2_witness :
  exists j sample s',
    WindowedResampler 0 100%Q ex_pred ex_true (1 # 2) (world0 [7]) = (Ok sample, s') /\
    j < length ex_true /\ ex_true !! j = Some sample.
Proof.
  apply (C2_fallback_returns_truth_member 0 100%Q ex_pred ex_true (1 # 2) (world0 [7])).
  - discriminate.
  - vm_compute. reflexivity.
Defined.

(** C6. For predicted column [1,2,3,4,5], true column [10,20,30,40,50],
    observed prediction 3 and tolerance 1/2, the candidate index set is the
    single index 2 (where the prediction is 3), and the step returns 30
    whatever the state of the generator. *)
Theorem C6_example_returns_30 :
  candidates 3%Q (1 # 2) ex_pred = [2] /\
  ex_pred !! 2 = Some 3%Q /\
  forall i s, fst (WindowedResampler i 3%Q ex_pred ex_true (1 # 2) s) = Ok 30%Q.
Proof.
  assert (candidates 3%Q (1 # 2) ex_pred = [2]) as Hc by (vm_compute; reflexivity).
  split; [done|]. split; [done|]. intros i s.
  unfold WindowedResampler. rewrite Hc.
  assert (fancy ex_true [2] s = (Ok [30%Q], s)) as Hf by reflexivity.
  erewrite bind_Ok by exact Hf. reflexivity.
Qed.

(** C7. For a fixed observed prediction and predicted column, every
    candidate under tolerance w is a candidate under any wider tolerance
    w' (the bound 0 <= w is not needed). *)
Theorem C7_candidates_monotone v (pred : list Q) (w w' : Q) :
  (w <= w')%Q ->
  candidates v w pred ⊆ candidates v w' pred.
Proof.
  intros Hw i. rewrite !candidates_spec.
  intros (x & Hx & Hlo & Hhi). exists x. split; [done|]. split; lra.
Qed.

Lemma C7_witness :
  candidates 3%Q (1 # 2) ex_pred ⊆ candidates 3%Q 1%Q ex_pred.
Proof.
  apply (C7_candidates_monotone 3%Q ex_pred (1 # 2) 1%Q). vm_compute. discriminate.
Defined.

(** ** Determinism in the generator *)

Lemma same_rng_refl s : same_rng s s.
Proof. by split. Qed.

Lemma same_rng_trans s t u : same_rng s t -> same_rng t u -> same_rng s u.
Proof.
  intros [H1 H2] [H3 H4]. split; [congruence|]. intros k. by rewrite H2.
Qed.

Lemma same_rng_sym s t : same_rng s t -> same_rng t s.
Proof. intros [H1 H2]. split; [done|]. intros k. by rewrite H2. Qed.

Lemma respects_ret {A} (a : A) : respects (ret a).
Proof. by intros s t H. Qed.

Lemma respects_raise {A} (e : exn) : respects (@raise A e).
Proof. by intros s t H. Qed.

Lemma respects_bind {A B} (m : M A) (k : A -> M B) :
  respects m -> (forall a, respects (k a)) -> respects (bind m k).
Proof.
  intros Hm Hk s t Hst. unfold bind.
  destruct (Hm s t Hst) as [H1 H2].
  destruct (m s) as [[a|e] s1], (m t) as [[b|e'] t1]; simpl in *;
    try discriminate.
  - inversion H1; subst. by apply Hk.
  - by inversion H1.
Qed.

Lemma respects_print msg : respects (print msg).
Proof. intros s t [H1 H2]. by split. Qed.

Lemma respects_np_random_choice a : respects (np_random_choice a).
Proof.
  unfold np_random_choice. destruct (a =? 0); [apply respects_raise|].
  intros s t [H1 H2]. simpl. rewrite H1, H2. split; [done|]. by split.
Qed.

Lemma respects_getitem (a : list Q) i : respects (getitem a i).
Proof.
  unfold getitem. destruct (a !! i); [apply respects_ret | apply respects_raise].
Qed.

Lemma respects_setitem (a : list Q) i x : respects (setitem a i x).
Proof.
  unfold setitem. destruct (i <? length a); [apply respects_ret | apply respects_raise].
Qed.

Lemma respects_fancy (a : list Q) inds : respects (fancy a inds).
Proof.
  induction inds as [|i inds IH]; simpl; [apply respects_ret|].
  apply respects_bind; [apply respects_getitem|]. intros x.
  apply respects_bind; [done|]. intros xs. apply respects_ret.
Qed.

Lemma respects_getcol m i : respects (getcol m i).
Proof.
  unfold getcol. destruct (i <? ncols m); [apply respects_ret | apply respects_raise].
Qed.

Lemma respects_setcol m i v : respects (setcol m i v).
Proof.
  unfold setcol.
  destruct (negb (i <? ncols m)); [apply respects_raise|].
  destruct (length v =? nrows m); [apply respects_ret|].
  destruct (length v =? 1); [apply respects_ret | apply respects_raise].
Qed.

Lemma respects_for_each {A} l (body : nat -> A -> M A) acc :
  (forall i a, respects (body i a)) -> respects (for_each l body acc).
Proof.
  intros Hb. revert acc. induction l as [|i l IH]; intros acc; simpl.
  - apply respects_ret.
  - apply respects_bind; [apply Hb | apply IH].
Qed.

Create HintDb respects_db.
#[local] Hint Resolve respects_ret respects_raise respects_print
  respects_np_random_choice respects_getitem respects_setitem respects_fancy
  respects_getcol respects_setcol : respects_db.

Ltac respects_step :=
  first [ apply respects_bind; [|intros ?]
        | solve [auto with respects_db] ].

Lemma respects_WindowedResampler i v (pred truth : list Q) W :
  respects (WindowedResampler i v pred truth W).
Proof.
  unfold WindowedResampler. respects_step; [respects_step|].
  destruct (length _ =? 0); repeat respects_step.
Qed.

Lemma respects_sample_ecdf (obs pred truth : list Q) W :
  respects (sample_ecdf obs pred truth W).
Proof.
  unfold sample_ecdf, for_range. apply respects_for_each. intros i a.
  unfold sample_ecdf_body. respects_step; [respects_step|].
  respects_step; [apply respects_WindowedResampler | respects_step].
Qed.

Lemma respects_compute_default_tol m : respects (compute_default_tol m).
Proof.
  unfold compute_default_tol, np_min_axis0, np_max_axis0.
  destruct (nrows m =? 0); repeat respects_step.
Qed.

Lemma respects_sampling_body obs pred truth Ws i acc :
  respects (sampling_body obs pred truth Ws i acc).
Proof.
  unfold sampling_body. do 5 (respects_step; [respects_step|]).
  respects_step; [apply respects_sample_ecdf | respects_step].
Qed.

Lemma respects_EmpiricalPosteriorSampling obs pred truth Ws :
  respects (EmpiricalPosteriorSampling obs pred truth Ws).
Proof.
  unfold EmpiricalPosteriorSampling. apply respects_bind.
  - destruct Ws; [apply respects_ret | apply respects_compute_default_tol].
  - intros l. unfold for_range. apply respects_for_each.
    intros i a. apply respects_sampling_body.
Qed.

(** C8. Two invocations of EmpiricalPosteriorSampling on identical inputs,
    each started with the generator seeded alike (same tape, same
    position), have the same outcome: both raise the same exception, or
    both return matrices of the same shape that are equal entry for
    entry. *)
Theorem C8_seeded_runs_agree obs pred truth Ws s t :
  same_rng s t ->
  match fst (EmpiricalPosteriorSampling obs pred truth Ws s),
        fst (EmpiricalPosteriorSampling obs pred truth Ws t) with
  | Ok m1, Ok m2 =>
      nrows m1 = nrows m2 /\ ncols m1 = ncols m2 /\
      forall r c, cell m1 r c = cell m2 r c
  | Raise e1, Raise e2 => e1 = e2
  | _, _ => False
  end.
Proof.
  intros Hst.
  destruct (respects_EmpiricalPosteriorSampling obs pred truth Ws s t Hst)
    as [H _].
  rewrite H.
  destruct (fst (EmpiricalPosteriorSampling obs pred truth Ws t)) as [m|e];
    [repeat split | reflexivity].
Qed.

Lemma C8_witness :
  match fst (EmpiricalPosteriorSampling ex_obs2 ex_pred2 ex_true2 None
               (world0 [7; 3; 4; 4])),
        fst (EmpiricalPosteriorSampling ex_obs2 ex_pred2 ex_true2 None
               (World (fun k => nth k [7; 3; 4; 4] 0) 0 ["earlier output"%string]))
  with
  | Ok m1, Ok m2 =>
      nrows m1 = nrows m2 /\ ncols m1 = ncols m2 /\
      forall r c, cell m1 r c = cell m2 r c
  | Raise e1, Raise e2 => e1 = e2
  | _, _ => False
  end.
Proof.
  apply (C8_seeded_runs_agree ex_obs2 ex_pred2 ex_true2 None).
  split; [reflexivity | intros k; reflexivity].
Defined.

(** ** One parameter: [sample_ecdf] *)

Lemma WindowedResampler_inv i v (pred truth : list Q) W s x s' :
  WindowedResampler i v pred truth W s = (Ok x, s') ->
  x ∈ truth /\ tape s' = tape s /\ pos s' = S (pos s).
Proof.
  intros H. unfold WindowedResampler in H.
  apply bind_inv_Ok in H as (cs & s1 & Hcs & H).
  apply fancy_inv in Hcs as (-> & _ & Hcs).
  destruct (length cs =? 0).
  - apply bind_inv_Ok in H as (u & s2 & Hp & H).
    unfold print in Hp. inversion Hp; subst; clear Hp.
    apply bind_inv_Ok in H as (k & s3 & Hk & H).
    apply np_random_choice_inv in Hk as (_ & _ & ->).
    apply getitem_inv in H as [Hx ->]. split; [|done].
    by apply list_elem_of_lookup_2 in Hx.
  - apply bind_inv_Ok in H as (k & s3 & Hk & H).
    apply np_random_choice_inv in Hk as (_ & _ & ->).
    apply getitem_inv in H as [Hx ->]. split; [|done].
    apply Hcs in Hx as (j & _ & Hx). by apply list_elem_of_lookup_2 in Hx.
Qed.

Lemma WindowedResampler_total i v (pred truth : list Q) W s :
  length pred <= length truth -> truth <> [] ->
  exists x s', WindowedResampler i v pred truth W s = (Ok x, s').
Proof.
  intros Hlen Hne. destruct (decide (candidates v W pred = [])) as [Hc|Hc].
  - destruct (WindowedResampler_fallback i v pred truth W s Hne Hc) as (x & _ & H).
    eauto.
  - destruct (WindowedResampler_window_total i v pred truth W s Hc Hlen) as [x H].
    eauto.
Qed.

Lemma setitem_inv (a : list Q) i x a' s s' :
  setitem a i x s = (Ok a', s') -> i < length a /\ a' = <[i:=x]> a /\ s' = s.
Proof.
  unfold setitem. destruct (Nat.ltb_spec i (length a)) as [Hi|Hi];
    intros E; by inversion E.
Qed.

Lemma sample_ecdf_body_inv (obs pred truth : list Q) W i acc s acc' s' :
  sample_ecdf_body obs pred truth W i acc s = (Ok acc', s') ->
  exists v sample,
    obs !! i = Some v /\
    WindowedResampler i v pred truth W s = (Ok sample, s') /\
    i < length acc /\ acc' = <[i:=sample]> acc.
Proof.
  intros H. unfold sample_ecdf_body in H.
  apply bind_inv_Ok in H as (v & s1 & Hv & H).
  apply getitem_inv in Hv as [Hv ->].
  apply bind_inv_Ok in H as (x & s2 & Hx & H).
  apply setitem_inv in H as (Hi & -> & ->). by exists v, x.
Qed.

Lemma sample_ecdf_loop_inv (obs pred truth : list Q) W n :
  forall a acc s acc' s',
    for_each (seq a n) (sample_ecdf_body obs pred truth W) acc s = (Ok acc', s') ->
    length acc' = length acc /\ tape s' = tape s /\ pos s' = pos s + n /\
    (forall r, r < a -> acc' !! r = acc !! r) /\
    (forall r x, a <= r < a + n -> acc' !! r = Some x -> x ∈ truth).
Proof.
  induction n as [|n IH]; intros a acc s acc' s' H; simpl in H.
  - inversion H; subst. repeat split; try done; try lia.
  - apply bind_inv_Ok in H as (acc1 & s1 & Hb & H).
    apply sample_ecdf_body_inv in Hb as (v & x & Hv & Hx & Ha & ->).
    apply WindowedResampler_inv in Hx as (Hx & Ht & Hp).
    apply IH in H as (Hl & Ht' & Hp' & Hlow & Hhigh).
    rewrite length_insert in Hl.
    split; [done|]. split; [congruence|]. split; [lia|]. split.
    + intros r Hr. rewrite Hlow by lia. apply list_lookup_insert_ne. lia.
    + intros r y Hr Hy. destruct (decide (r = a)) as [->|Hne].
      * rewrite Hlow in Hy by lia.
        rewrite list_lookup_insert_eq in Hy by done. by inversion Hy; subst.
      * apply (Hhigh r y); [lia | done].
Qed.

Lemma sample_ecdf_inv (obs pred truth : list Q) W s col s' :
  sample_ecdf obs pred truth W s = (Ok col, s') ->
  length col = length obs /\ tape s' = tape s /\
  pos s' = pos s + length obs /\ forall x, x ∈ col -> x ∈ truth.
Proof.
  intros H. unfold sample_ecdf, for_range in H.
  apply sample_ecdf_loop_inv in H as (Hl & Ht & Hp & _ & Hin).
  unfold np_zeros in Hl. rewrite length_replicate in Hl.
  repeat split; try done.
  intros x Hx. apply list_elem_of_lookup in Hx as [r Hr].
  apply (Hin r x); [|done]. apply lookup_lt_Some in Hr. lia.
Qed.

Lemma sample_ecdf_loop_total (obs pred truth : list Q) W n :
  forall a acc s,
    a + n <= length obs -> length acc = length obs ->
    length pred <= length truth -> truth <> [] ->
    exists acc' s',
      for_each (seq a n) (sample_ecdf_body obs pred truth W) acc s = (Ok acc', s').
Proof.
  induction n as [|n IH]; intros a acc s Han Hacc Hlen Hne; simpl.
  - by eexists _, _.
  - destruct (lookup_lt_is_Some_2 obs a) as [v Hv]; [lia|].
    destruct (WindowedResampler_total a v pred truth W s Hlen Hne) as (x & s1 & Hx).
    destruct (IH (S a) (<[a:=x]> acc) s1) as (acc' & s' & H); try done.
    { lia. } { by rewrite length_insert. }
    exists acc', s'. erewrite bind_Ok; [exact H|].
    unfold sample_ecdf_body.
    erewrite bind_Ok by (by apply getitem_Ok).
    erewrite bind_Ok by exact Hx.
    unfold setitem. destruct (Nat.ltb_spec a (length acc)); [done | lia].
Qed.

Lemma sample_ecdf_total (obs pred truth : list Q) W s :
  length pred <= length truth -> truth <> [] ->
  exists col s', sample_ecdf obs pred truth W s = (Ok col, s').
Proof.
  intros Hlen Hne. unfold sample_ecdf, for_range.
  apply sample_ecdf_loop_total; try done.
  unfold np_zeros. by rewrite length_replicate.
Qed.

(** ** All parameters: [EmpiricalPosteriorSampling] *)

Lemma length_column m c : length (column m c) = nrows m.
Proof. unfold column. by rewrite length_fmap, length_seq. Qed.

Lemma getcol_inv m i v s s' :
  getcol m i s = (Ok v, s') -> i < ncols m /\ v = column m i /\ s' = s.
Proof.
  unfold getcol. destruct (Nat.ltb_spec i (ncols m)) as [Hi|Hi];
    intros E; by inversion E.
Qed.

Lemma getcol_Ok m i s : i < ncols m -> getcol m i s = (Ok (column m i), s).
Proof.
  intros Hi. unfold getcol. destruct (Nat.ltb_spec i (ncols m)); [done | lia].
Qed.

Lemma setcol_Ok m i (v : list Q) s :
  i < ncols m -> length v = nrows m ->
  setcol m i v s =
    (Ok (Ndarray2 (nrows m) (ncols m)
           (fun r c => if c =? i then nth r v 0%Q else cell m r c)), s).
Proof.
  intros Hi Hv. unfold setcol.
  destruct (Nat.ltb_spec i (ncols m)); [simpl | lia].
  destruct (Nat.eqb_spec (length v) (nrows m)); [done | lia].
Qed.

(** A column that is sampled exists in all three matrices. *)
Lemma sampling_body_cols obs pred truth Ws i acc s acc' s' :
  sampling_body obs pred truth Ws i acc s = (Ok acc', s') ->
  i < ncols obs /\ i < ncols pred /\ i < ncols truth.
Proof.
  intros H. unfold sampling_body in H.
  apply bind_inv_Ok in H as (u & s1 & _ & H).
  apply bind_inv_Ok in H as (a & s2 & Ha & H).
  apply bind_inv_Ok in H as (b & s3 & Hb & H).
  apply bind_inv_Ok in H as (c & s4 & Hc & H).
  apply getcol_inv in Ha as (? & _), Hb as (? & _), Hc as (? & _). done.
Qed.

Lemma sampling_body_inv obs pred truth Ws i acc s acc' s' :
  nrows acc = nrows obs -> ncols acc = ncols obs ->
  sampling_body obs pred truth Ws i acc s = (Ok acc', s') ->
  exists w col,
    Ws !! i = Some w /\
    sample_ecdf (column obs i) (column pred i) (column truth i) w
      (World (tape s) (pos s)
         (stdout s ++ [("Sampling parameter " ++ str i)%string])) = (Ok col, s') /\
    length col = nrows obs /\
    acc' = Ndarray2 (nrows acc) (ncols acc)
             (fun r c => if c =? i then nth r col 0%Q else cell acc r c).
Proof.
  intros Hr Hc H. unfold sampling_body in H.
  apply bind_inv_Ok in H as (u & s1 & Hp & H).
  unfold print in Hp. inversion Hp; subst; clear Hp.
  apply bind_inv_Ok in H as (a & s2 & Ha & H).
  apply getcol_inv in Ha as (Hia & -> & ->).
  apply bind_inv_Ok in H as (b & s3 & Hb & H).
  apply getcol_inv in Hb as (Hib & -> & ->).
  apply bind_inv_Ok in H as (c & s4 & Hcc & H).
  apply getcol_inv in Hcc as (Hic & -> & ->).
  apply bind_inv_Ok in H as (w & s5 & Hw & H).
  apply getitem_inv in Hw as [Hw ->].
  apply bind_inv_Ok in H as (col & s6 & Hcol & H).
  pose proof (sample_ecdf_inv _ _ _ _ _ _ _ Hcol) as (Hl & _).
  rewrite length_column in Hl.
  rewrite setcol_Ok in H by lia. inversion H; subst. by exists w, col.
Qed.

Lemma sampling_loop_inv obs pred truth Ws n :
  forall a acc s m s',
    nrows acc = nrows obs -> ncols acc = ncols obs ->
    for_each (seq a n) (sampling_body obs pred truth Ws) acc s = (Ok m, s') ->
    nrows m = nrows obs /\ ncols m = ncols obs /\
    tape s' = tape s /\ pos s' = pos s + n * nrows obs /\
    (forall r c, ~ (a <= c < a + n) -> cell m r c = cell acc r c) /\
    (forall c, a <= c < a + n ->
       exists w t col t',
         Ws !! c = Some w /\
         same_rng t (skip ((c - a) * nrows obs) s) /\
         sample_ecdf (column obs c) (column pred c) (column truth c) w t
           = (Ok col, t') /\
         length col = nrows obs /\
         forall r, cell m r c = nth r col 0%Q).
Proof.
  induction n as [|n IH]; intros a acc s m s' Hr Hc H; simpl in H.
  - inversion H; subst. repeat split; try done; try lia.
  - apply bind_inv_Ok in H as (acc1 & s1 & Hb & H).
    apply sampling_body_inv in Hb as (w & col & Hw & Hcol & Hlen & ->); try done.
    pose proof (sample_ecdf_inv _ _ _ _ _ _ _ Hcol) as (_ & Ht1 & Hp1 & _).
    rewrite length_column in Hp1. simpl in Ht1, Hp1.
    apply IH in H as (Hr' & Hc' & Ht & Hp & Hout & Hin); try done.
    split; [done|]. split; [done|]. split; [congruence|]. split; [lia|]. split.
    + intros r c Hnc. rewrite Hout by lia. simpl.
      destruct (Nat.eqb_spec c a); [lia | done].
    + intros c Hac. destruct (decide (c = a)) as [->|Hne].
      * eexists w, _, col, s1. split; [done|]. split; [|split; [exact Hcol|]].
        { split; simpl; [lia | done]. }
        split; [done|]. intros r. rewrite Hout by lia. simpl.
        by rewrite Nat.eqb_refl.
      * destruct (Hin c) as (w' & t & col' & t' & Hw' & Hrng & Hrun & Hl' & Hcell);
          [lia|].
        exists w', t, col', t'. split; [done|]. split; [|done].
        eapply same_rng_trans; [exact Hrng|]. split; simpl.
        -- rewrite Hp1. replace (c - a) with (S (c - S a)) by lia. simpl. lia.
        -- intros k. by rewrite Ht1.
Qed.

Lemma sampling_loop_total obs pred truth Ws n :
  forall a acc s,
    a + n <= length Ws -> a + n <= ncols obs ->
    a + n <= ncols pred -> a + n <= ncols truth ->
    nrows pred <= nrows truth -> 0 < nrows truth ->
    nrows acc = nrows obs -> ncols acc = ncols obs ->
    exists m s',
      for_each (seq a n) (sampling_body obs pred truth Ws) acc s = (Ok m, s').
Proof.
  induction n as [|n IH]; intros a acc s HW Ho Hp Ht HN HN0 Hr Hc; simpl.
  - by eexists _, _.
  - destruct (lookup_lt_is_Some_2 Ws a) as [w Hw]; [lia|].
    destruct (sample_ecdf_total (column obs a) (column pred a) (column truth a) w
                (World (tape s) (pos s)
                   (stdout s ++ [("Sampling parameter " ++ str a)%string])))
      as (col & s1 & Hcol).
    { rewrite !length_column. lia. }
    { intros E. apply (f_equal length) in E. rewrite length_column in E.
      simpl in E. lia. }
    pose proof (sample_ecdf_inv _ _ _ _ _ _ _ Hcol) as (Hl & _).
    rewrite length_column in Hl.
    edestruct (IH (S a)) as (m & s' & H); [..|exists m, s'; erewrite bind_Ok;
      [exact H|]]; try lia.
    3:{ unfold sampling_body. unfold bind at 1. simpl.
        erewrite bind_Ok by (apply getcol_Ok; lia).
        erewrite bind_Ok by (apply getcol_Ok; lia).
        erewrite bind_Ok by (apply getcol_Ok; lia).
        erewrite bind_Ok by (by apply getitem_Ok).
        erewrite bind_Ok by exact Hcol.
        apply setcol_Ok; lia. }
    all: simpl; lia.
Qed.

(** A column index beyond one of the three matrices makes the loop raise
    (at that column, unless an earlier column has raised already). *)
Lemma sampling_loop_raises obs pred truth Ws n :
  forall a acc s c,
    a <= c < a + n ->
    ncols obs <= c \/ ncols pred <= c \/ ncols truth <= c ->
    exists e,
      fst (for_each (seq a n) (sampling_body obs pred truth Ws) acc s) = Raise e.
Proof.
  induction n as [|n IH]; intros a acc s c Hc Hbad; [lia|]. simpl.
  destruct (sampling_body obs pred truth Ws a acc s) as [[acc1|e] s1] eqn:Hb.
  - apply sampling_body_cols in Hb as Hcols.
    erewrite bind_Ok by exact Hb. apply (IH (S a) acc1 s1 c); [lia | done].
  - erewrite bind_Raise by exact Hb. by exists e.
Qed.

(** ** Default tolerances: [compute_default_tol] *)

Lemma qmin_le x a : (qmin x a <= x)%Q /\ (qmin x a <= a)%Q.
Proof.
  unfold qmin. destruct (Qle_bool x a) eqn:E.
  - apply Qle_bool_iff in E. split; [apply Qle_refl | done].
  - split; [|apply Qle_refl]. apply Qlt_le_weak, Qnot_le_lt.
    intros H. apply Qle_bool_iff in H. congruence.
Qed.

Lemma qmax_ge x a : (x <= qmax x a)%Q /\ (a <= qmax x a)%Q.
Proof.
  unfold qmax. destruct (Qle_bool x a) eqn:E.
  - apply Qle_bool_iff in E. split; [done | apply Qle_refl].
  - split; [apply Qle_refl|]. apply Qlt_le_weak, Qnot_le_lt.
    intros H. apply Qle_bool_iff in H. congruence.
Qed.

Lemma list_min_le (l : list Q) :
  forall x, (list_min x l <= x)%Q /\ forall y, y ∈ l -> (list_min x l <= y)%Q.
Proof.
  unfold list_min. induction l as [|a l IH]; intros x; simpl.
  - split; [apply Qle_refl|]. intros y Hy. by apply elem_of_nil in Hy.
  - destruct (IH (qmin x a)) as [H1 H2]. destruct (qmin_le x a) as [H3 H4].
    split; [by eapply Qle_trans|]. intros y Hy.
    apply elem_of_cons in Hy as [->|Hy]; [by eapply Qle_trans | by apply H2].
Qed.

Lemma list_max_ge (l : list Q) :
  forall x, (x <= list_max x l)%Q /\ forall y, y ∈ l -> (y <= list_max x l)%Q.
Proof.
  unfold list_max. induction l as [|a l IH]; intros x; simpl.
  - split; [apply Qle_refl|]. intros y Hy. by apply elem_of_nil in Hy.
  - destruct (IH (qmax x a)) as [H1 H2]. destruct (qmax_ge x a) as [H3 H4].
    split; [by eapply Qle_trans|]. intros y Hy.
    apply elem_of_cons in Hy as [->|Hy]; [by eapply Qle_trans | by apply H2].
Qed.

Lemma list_min_in (l : list Q) : forall x, list_min x l ∈ x :: l.
Proof.
  unfold list_min. induction l as [|a l IH]; intros x; simpl; [left|].
  specialize (IH (qmin x a)). apply elem_of_cons in IH as [->|IH].
  - unfold qmin. destruct (Qle_bool x a); [left | right; left].
  - by do 2 right.
Qed.

Lemma list_max_in (l : list Q) : forall x, list_max x l ∈ x :: l.
Proof.
  unfold list_max. induction l as [|a l IH]; intros x; simpl; [left|].
  specialize (IH (qmax x a)). apply elem_of_cons in IH as [->|IH].
  - unfold qmax. destruct (Qle_bool x a); [right; left | left].
  - by do 2 right.
Qed.

Lemma elem_of_col_tail m c y :
  y ∈ (fun r => cell m r c) <$> seq 1 (nrows m - 1) <->
  exists r, 1 <= r < nrows m /\ y = cell m r c.
Proof.
  rewrite list_elem_of_fmap. split.
  - intros (r & -> & Hr). apply elem_of_seq in Hr. exists r. split; [lia | done].
  - intros (r & Hr & ->). exists r. split; [done|]. apply elem_of_seq. lia.
Qed.

Lemma col_min_spec m c : 0 < nrows m -> is_col_min m c (col_min m c).
Proof.
  intros HN. unfold col_min. split.
  - pose proof (list_min_in ((fun r => cell m r c) <$> seq 1 (nrows m - 1))
                  (cell m 0 c)) as H.
    apply elem_of_cons in H as [H|H].
    + exists 0. by split.
    + apply elem_of_col_tail in H as (r & Hr & H). exists r. split; [lia | done].
  - intros r Hr.
    destruct (list_min_le ((fun r => cell m r c) <$> seq 1 (nrows m - 1))
                (cell m 0 c)) as [H0 H1].
    destruct r as [|r]; [done|]. apply H1, elem_of_col_tail.
    exists (S r). split; [lia | done].
Qed.

Lemma col_max_spec m c : 0 < nrows m -> is_col_max m c (col_max m c).
Proof.
  intros HN. unfold col_max. split.
  - pose proof (list_max_in ((fun r => cell m r c) <$> seq 1 (nrows m - 1))
                  (cell m 0 c)) as H.
    apply elem_of_cons in H as [H|H].
    + exists 0. by split.
    + apply elem_of_col_tail in H as (r & Hr & H). exists r. split; [lia | done].
  - intros r Hr.
    destruct (list_max_ge ((fun r => cell m r c) <$> seq 1 (nrows m - 1))
                (cell m 0 c)) as [H0 H1].
    destruct r as [|r]; [done|]. apply H1, elem_of_col_tail.
    exists (S r). split; [lia | done].
Qed.

Lemma compute_default_tol_empty m s :
  nrows m = 0 -> compute_default_tol m s = (Raise ValueError, s).
Proof.
  intros H. unfold compute_default_tol, np_min_axis0. by rewrite H.
Qed.

Lemma compute_default_tol_Ok m s :
  0 < nrows m ->
  exists Ws,
    compute_default_tol m s = (Ok Ws, s) /\ length Ws = ncols m /\
    forall p, p < ncols m ->
      Ws !! p = Some (rangefraction * (col_max m p - col_min m p))%Q.
Proof.
  intros HN. unfold compute_default_tol, np_min_axis0, np_max_axis0.
  destruct (Nat.eqb_spec (nrows m) 0) as [?|_]; [lia|].
  eexists. split; [reflexivity|]. split.
  - rewrite length_fmap, length_zip_with, !length_fmap, !length_seq. lia.
  - intros p Hp.
    rewrite list_lookup_fmap, lookup_zip_with, !list_lookup_fmap.
    by rewrite lookup_seq_lt.
Qed.



(** ** Shapes, failures and unwritten columns *)

Lemma EmpiricalPosteriorSampling_Some obs pred truth Ws s :
  EmpiricalPosteriorSampling obs pred truth (Some Ws) s =
  for_each (seq 0 (length Ws)) (sampling_body obs pred truth Ws)
    (np_zeros_like_shape obs) s.
Proof. reflexivity. Qed.

Lemma EmpiricalPosteriorSampling_None obs pred truth s :
  0 < nrows pred ->
  exists Ws,
    length Ws = ncols pred /\
    (forall p, p < ncols pred ->
       Ws !! p = Some (rangefraction * (col_max pred p - col_min pred p))%Q) /\
    EmpiricalPosteriorSampling obs pred truth None s =
    EmpiricalPosteriorSampling obs pred truth (Some Ws) s.
Proof.
  intros HN. destruct (compute_default_tol_Ok pred s HN) as (Ws & Hrun & Hl & Hp).
  exists Ws. split; [done|]. split; [done|].
  unfold EmpiricalPosteriorSampling. by erewrite bind_Ok by exact Hrun.
Qed.

Lemma EmpiricalPosteriorSampling_None_empty obs pred truth s :
  nrows pred = 0 ->
  EmpiricalPosteriorSampling obs pred truth None s = (Raise ValueError, s).
Proof.
  intros HN. unfold EmpiricalPosteriorSampling.
  by erewrite bind_Raise by (by apply compute_default_tol_empty).
Qed.

(** C5. For inputs of consistent shapes ([QxP] observed, [NxP] predicted
    and true, N > 0, tolerances of length P or omitted),
    EmpiricalPosteriorSampling returns, and what it returns has shape
    [QxP]. *)
Theorem C5_consistent_shapes_give_QxP obs pred truth Ws s :
  0 < nrows pred -> nrows truth = nrows pred ->
  ncols pred = ncols obs -> ncols truth = ncols obs ->
  match Ws with Some l => length l = ncols obs | None => True end ->
  exists m s',
    EmpiricalPosteriorSampling obs pred truth Ws s = (Ok m, s') /\
    nrows m = nrows obs /\ ncols m = ncols obs.
Proof.
  intros HN HN' HP HP' HW.
  assert (exists l, length l = ncols obs /\
            EmpiricalPosteriorSampling obs pred truth Ws s =
            EmpiricalPosteriorSampling obs pred truth (Some l) s)
    as (l & Hl & ->).
  { destruct Ws as [l|]; [by exists l|].
    destruct (EmpiricalPosteriorSampling_None obs pred truth s HN)
      as (l & Hl & _ & E).
    exists l. split; [congruence | done]. }
  rewrite EmpiricalPosteriorSampling_Some.
  destruct (sampling_loop_total obs pred truth l (length l) 0
              (np_zeros_like_shape obs) s) as (m & s' & H);
    try done; try (simpl; lia).
  exists m, s'. split; [done|].
  apply sampling_loop_inv in H as (Hr & Hc & _); done.
Qed.

Lemma C5_witness :
  exists m s',
    EmpiricalPosteriorSampling ex_obs2 ex_pred2 ex_true2 None (world0 [7; 3; 4; 4])
      = (Ok m, s') /\
    nrows m = nrows ex_obs2 /\ ncols m = ncols ex_obs2.
Proof.
  apply (C5_consistent_shapes_give_QxP ex_obs2 ex_pred2 ex_true2 None
           (world0 [7; 3; 4; 4])); simpl; first [lia | reflexivity | exact I].
Defined.

(** C10. With k caller-supplied tolerances, k smaller than the parameter
    count P of the observed predictions (and the test set having at least k
    columns and a non-empty true column for every predicted row),
    EmpiricalPosteriorSampling raises nothing: it returns a [QxP] matrix
    whose first k columns hold sampled true values, taking k*Q draws, and
    whose other P-k columns are the zeros of the preallocated output. *)
Theorem C10_short_tolerances_leave_zero_columns obs pred truth (Ws : list Q) s :
  length Ws < ncols obs ->
  length Ws <= ncols pred -> length Ws <= ncols truth ->
  nrows pred <= nrows truth -> 0 < nrows truth ->
  exists m s',
    EmpiricalPosteriorSampling obs pred truth (Some Ws) s = (Ok m, s') /\
    nrows m = nrows obs /\ ncols m = ncols obs /\
    (forall r c, length Ws <= c -> cell m r c = 0%Q) /\
    (forall r c, r < nrows obs -> c < length Ws ->
       cell m r c ∈ column truth c) /\
    pos s' = pos s + length Ws * nrows obs.
Proof.
  intros Hk Hp Ht HN HN0. rewrite EmpiricalPosteriorSampling_Some.
  destruct (sampling_loop_total obs pred truth Ws (length Ws) 0
              (np_zeros_like_shape obs) s) as (m & s' & H);
    try done; try (simpl; lia).
  exists m, s'. split; [done|].
  apply sampling_loop_inv in H as (Hr & Hc & _ & Hpos & Hout & Hin); try done.
  split; [done|]. split; [done|]. split; [|split; [|done]].
  - intros r c Hc'. rewrite Hout by lia. done.
  - intros r c Hr' Hc'.
    destruct (Hin c) as (w & t & col & t' & _ & _ & Hrun & Hl & Hcell); [lia|].
    apply sample_ecdf_inv in Hrun as (_ & _ & _ & Hmem).
    rewrite Hcell. apply Hmem.
    destruct (lookup_lt_is_Some_2 col r) as [x Hx]; [lia|].
    rewrite (nth_lookup_Some _ _ _ _ Hx). by apply list_elem_of_lookup_2 in Hx.
Qed.

Lemma C10_witness :
  exists m s',
    EmpiricalPosteriorSampling ex_obs2 ex_pred2 ex_true2 (Some [1 # 5]%Q)
      (world0 [7; 3]) = (Ok m, s') /\
    nrows m = nrows ex_obs2 /\ ncols m = ncols ex_obs2 /\
    (forall r c, length [1 # 5]%Q <= c -> cell m r c = 0%Q) /\
    (forall r c, r < nrows ex_obs2 -> c < length [1 # 5]%Q ->
       cell m r c ∈ column ex_true2 c) /\
    pos s' = pos (world0 [7; 3]) + length [1 # 5]%Q * nrows ex_obs2.
Proof.
  apply (C10_short_tolerances_leave_zero_columns ex_obs2 ex_pred2 ex_true2
           [1 # 5]%Q (world0 [7; 3])); simpl; lia.
Defined.

(** A run with one tolerance for two parameters: the second column is never
    written. *)
Example short_tolerances_run :
  match fst (EmpiricalPosteriorSampling ex_obs2 ex_pred2 ex_true2
               (Some [1 # 5]%Q) (world0 [7; 3])) with
  | Ok m => to_rows m = [[30; 0]; [10; 0]]%Q
  | Raise _ => False
  end.
Proof. vm_compute. reflexivity. Qed.

(** C4, as the code has it. EmpiricalPosteriorSampling checks no shapes.
    When the number of tolerances (for omitted tolerances, the number of
    predicted-test columns) exceeds the number of columns of one of the three
    matrices, the call raises and returns no matrix. *)
Theorem C4_missing_column_raises obs pred truth Ws s :
  Nat.min (ncols obs) (Nat.min (ncols pred) (ncols truth)) < n_tol pred Ws ->
  exists e, fst (EmpiricalPosteriorSampling obs pred truth Ws s) = Raise e.
Proof.
  intros H.
  assert (forall l, length l = n_tol pred Ws ->
            exists e, fst (EmpiricalPosteriorSampling obs pred truth (Some l) s)
                      = Raise e) as Hsome.
  { intros l Hl. rewrite EmpiricalPosteriorSampling_Some.
    apply (sampling_loop_raises obs pred truth l (length l) 0 _ s
             (Nat.min (ncols obs) (Nat.min (ncols pred) (ncols truth)))); lia. }
  destruct Ws as [l|]; [by apply Hsome|].
  destruct (Nat.eq_dec (nrows pred) 0) as [HN|HN].
  - rewrite EmpiricalPosteriorSampling_None_empty by done. by eexists.
  - destruct (EmpiricalPosteriorSampling_None obs pred truth s)
      as (l & Hl & _ & ->); [lia|]. by apply Hsome.
Qed.

Lemma C4_witness :
  exists e,
    fst (EmpiricalPosteriorSampling (of_rows 1 1 [[3]]%Q) ex_pred2 ex_true2 None
           (world0 [7; 3])) = Raise e.
Proof.
  apply (C4_missing_column_raises (of_rows 1 1 [[3]]%Q) ex_pred2 ex_true2 None
           (world0 [7; 3])).
  simpl. lia.
Defined.

(** C4, as stated, fails: the parameter counts differ (two observed columns,
    one test-set column) and so do the realization counts (five predicted,
    six true rows), and the call returns a matrix, its second column
    unwritten. *)
Lemma C4_counterexample :
  ncols mis_obs <> ncols mis_pred /\
  nrows mis_pred <> nrows mis_true /\
  match fst (EmpiricalPosteriorSampling mis_obs mis_pred mis_true None
               (world0 [0])) with
  | Ok m => to_rows m = [[30; 0]]%Q
  | Raise _ => False
  end.
Proof.
  split; [simpl; lia|]. split; [simpl; lia|]. vm_compute. reflexivity.
Qed.

(** When the call does raise for a missing column, sampling has begun: the
    first column has been announced and sampled (one draw taken) before the
    second is found missing from the observed predictions. *)
Example raise_comes_after_sampling :
  let r := EmpiricalPosteriorSampling (of_rows 1 1 [[3]]%Q) ex_pred2 ex_true2 None
             (world0 [7; 3]) in
  fst r = Raise IndexError /\ pos (snd r) = 1 /\
  stdout (snd r) = ["Sampling parameter 0"; "Sampling parameter 1"]%string.
Proof. vm_compute. repeat split. Qed.

(** ** Parameters and the shared generator *)






(** ** Further properties of the sampler *)


(** X6. With a non-negative tolerance, an observed prediction that coincides
    with a test-set prediction has that realization as a candidate, so the
    step does not fall back. *)
Theorem exact_match_is_candidate v W (pred : list Q) j x :
  (0 <= W)%Q -> pred !! j = Some x -> (x == v)%Q ->
  j ∈ candidates v W pred /\ candidates v W pred <> [].
Proof.
  intros HW Hx Hv.
  assert (j ∈ candidates v W pred) as Hj.
  { apply candidates_spec. exists x. split; [done|]. split; lra. }
  split; [done|]. intros E. rewrite E in Hj. by apply elem_of_nil in Hj.
Qed.

Lemma exact_match_is_candidate_witness :
  2 ∈ candidates 3%Q 0%Q ex_pred /\ candidates 3%Q 0%Q ex_pred <> [].
Proof.
  apply (exact_match_is_candidate 3%Q 0%Q ex_pred 2 3%Q).
  - vm_compute. discriminate.
  - reflexivity.
  - reflexivity.
Defined.

(** X7. With a zero tolerance the candidates are exactly the realizations whose
    prediction equals the observed one. *)
Theorem zero_tolerance_candidates v W (pred : list Q) i :
  (W == 0)%Q ->
  (i ∈ candidates v W pred <-> exists x, pred !! i = Some x /\ (x == v)%Q).
Proof.
  intros HW. rewrite candidates_spec.
  split; intros (x & Hx & H); exists x; (split; [done|]).
  - destruct H. lra.
  - split; lra.
Qed.

Lemma zero_tolerance_candidates_witness :
  2 ∈ candidates 3%Q (0 # 20)%Q ex_pred <->
  exists x, ex_pred !! 2 = Some x /\ (x == 3)%Q.
Proof.
  apply (zero_tolerance_candidates 3%Q (0 # 20)%Q ex_pred 2). reflexivity.
Defined.



Lemma NoDup_candidates v W (pred : list Q) : NoDup (candidates v W pred).
Proof.
  unfold candidates, np_where. apply NoDup_filter, NoDup_seq.
Qed.

(** X3. The draw is over the candidates, each once: the candidate index set has
    no repetition, and when the generator yields [k], the rank of candidate
    [j] in it, the step returns [truth[j]]. Every candidate can be
    returned, by exactly one residue of the draw. *)
Theorem every_candidate_is_drawn i v (pred truth : list Q) W k j s :
  candidates v W pred !! k = Some j ->
  length pred <= length truth ->
  tape s (pos s) = k ->
  NoDup (candidates v W pred) /\
  exists x, truth !! j = Some x /\
    fst (WindowedResampler i v pred truth W s) = Ok x.
Proof.
  intros Hk Hlen Htape. split; [apply NoDup_candidates|].
  unfold WindowedResampler.
  destruct (fancy_total truth (candidates v W pred) s) as [cs Hcs].
  { intros j' Hj'. apply candidates_lt in Hj'. lia. }
  erewrite bind_Ok by exact Hcs.
  apply fancy_inv in Hcs as (_ & Hl & Hcs).
  pose proof (lookup_lt_Some _ _ _ Hk) as Hklt.
  destruct (Nat.eqb_spec (length cs) 0) as [H0|H0]; [lia|].
  erewrite bind_Ok by (apply np_random_choice_Ok; lia). simpl.
  rewrite Htape, Nat.mod_small by lia.
  destruct (lookup_lt_is_Some_2 cs k) as [x Hx]; [lia|].
  destruct (Hcs k x Hx) as (j' & Hj' & Ht).
  assert (j' = j) as -> by congruence.
  exists x. split; [done|]. by erewrite getitem_Ok by exact Hx.
Qed.

Lemma every_candidate_is_drawn_witness :
  NoDup (candidates 3%Q 1%Q ex_pred) /\
  exists x, ex_true !! 3 = Some x /\
    fst (WindowedResampler 0 3%Q ex_pred ex_true 1%Q (world0 [2])) = Ok x.
Proof.
  apply (every_candidate_is_drawn 0 3%Q ex_pred ex_true 1%Q 2 3 (world0 [2]));
    [reflexivity | simpl; lia | reflexivity].
Defined.

(** X4. On the fallback path every value of the true column can be returned:
    when the generator yields an index [j] of the true column, the step
    returns [truth[j]], whether or not realization [j] has a prediction. *)
Theorem fallback_draws_whole_truth_column i v (pred truth : list Q) W j s :
  candidates v W pred = [] ->
  j < length truth ->
  tape s (pos s) = j ->
  exists x, truth !! j = Some x /\
    fst (WindowedResampler i v pred truth W s) = Ok x.
Proof.
  intros Hc Hj Htape.
  destruct (WindowedResampler_fallback i v pred truth W s) as (x & Hx & H);
    [by destruct truth; [simpl in Hj; lia|] | done |].
  rewrite Htape, Nat.mod_small in Hx by done.
  exists x. split; [done|]. by rewrite H.
Qed.

Lemma fallback_draws_whole_truth_column_witness :
  exists x, (ex_true ++ [60%Q]) !! 5 = Some x /\
    fst (WindowedResampler 0 100%Q ex_pred (ex_true ++ [60%Q]) (1 # 2)
           (world0 [5])) = Ok x.
Proof.
  apply (fallback_draws_whole_truth_column 0 100%Q ex_pred (ex_true ++ [60%Q])
           (1 # 2) 5 (world0 [5])); [reflexivity | simpl; lia | reflexivity].
Defined.

(** ** Further properties of [sample_ecdf] *)

(** X1. Whenever the true column is non-empty and at least as long as the
    predicted one, [sample_ecdf] returns one sample per observed
    realization, each of them a value of the true column, and takes exactly
    one draw per realization from the generator. *)
Theorem sample_ecdf_samples_truth (obs pred truth : list Q) W s :
  length pred <= length truth -> truth <> [] ->
  exists col s',
    sample_ecdf obs pred truth W s = (Ok col, s') /\
    length col = length obs /\
    (forall x, x ∈ col -> x ∈ truth) /\
    pos s' = pos s + length obs /\ tape s' = tape s.
Proof.
  intros Hlen Hne.
  destruct (sample_ecdf_total obs pred truth W s Hlen Hne) as (col & s' & H).
  exists col, s'. split; [done|].
  apply sample_ecdf_inv in H as (Hl & Ht & Hp & Hin). done.
Qed.

Lemma sample_ecdf_samples_truth_witness :
  exists col s',
    sample_ecdf [3; 100]%Q ex_pred ex_true (1 # 2) (world0 [7; 3]) = (Ok col, s') /\
    length col = length [3; 100]%Q /\
    (forall x, x ∈ col -> x ∈ ex_true) /\
    pos s' = pos (world0 [7; 3]) + length [3; 100]%Q /\
    tape s' = tape (world0 [7; 3]).
Proof.
  apply (sample_ecdf_samples_truth [3; 100]%Q ex_pred ex_true (1 # 2)
           (world0 [7; 3])); [simpl; lia | discriminate].
Defined.

Lemma WindowedResampler_stdout i v (pred truth : list Q) W s x s' :
  WindowedResampler i v pred truth W s = (Ok x, s') ->
  stdout s' =
    stdout s ++
    (if decide (candidates v W pred = []) then [no_match_notice i] else []).
Proof.
  intros H. destruct (decide (candidates v W pred = [])) as [Hc|Hc].
  - pose proof (WindowedResampler_inv _ _ _ _ _ _ _ _ H) as (Hx & _).
    destruct (WindowedResampler_fallback i v pred truth W s) as (y & _ & H');
      [|done|].
    { intros E. rewrite E in Hx. by apply elem_of_nil in Hx. }
    rewrite H' in H. by inversion H.
  - destruct (WindowedResampler_window_inv _ _ _ _ _ _ _ _ Hc H) as (j & _ & _ & ->).
    simpl. by rewrite app_nil_r.
Qed.

Lemma sample_ecdf_loop_stdout (obs pred truth : list Q) W n :
  forall a acc s acc' s',
    for_each (seq a n) (sample_ecdf_body obs pred truth W) acc s = (Ok acc', s') ->
    stdout s' =
      stdout s ++
      (no_match_notice <$>
         filter (fun i => candidates (nth i obs 0%Q) W pred = []) (seq a n)).
Proof.
  induction n as [|n IH]; intros a acc s acc' s' H; simpl in H.
  - inversion H; subst. simpl. by rewrite app_nil_r.
  - apply bind_inv_Ok in H as (acc1 & s1 & Hb & H).
    apply sample_ecdf_body_inv in Hb as (v & x & Hv & Hx & _ & _).
    apply WindowedResampler_stdout in Hx. apply IH in H.
    rewrite H, Hx. simpl. rewrite filter_cons.
    rewrite (nth_lookup_Some _ _ _ _ Hv).
    destruct (decide (candidates v W pred = [])); simpl.
    + by rewrite <- app_assoc.
    + by rewrite app_nil_r.
Qed.

(** X2. The notices of a run of [sample_ecdf] that returns: one line per
    observed realization without candidate, in the order of the
    realizations and naming each by its index, and nothing else. *)
Theorem sample_ecdf_notices (obs pred truth : list Q) W s :
  length pred <= length truth -> truth <> [] ->
  exists col s',
    sample_ecdf obs pred truth W s = (Ok col, s') /\
    stdout s' = stdout s ++ (no_match_notice <$> unmatched obs pred W).
Proof.
  intros Hlen Hne.
  destruct (sample_ecdf_total obs pred truth W s Hlen Hne) as (col & s' & H).
  exists col, s'. split; [done|].
  unfold sample_ecdf, for_range in H. by apply sample_ecdf_loop_stdout in H.
Qed.

Lemma sample_ecdf_notices_witness :
  exists col s',
    sample_ecdf [100; 3; 0]%Q ex_pred ex_true (1 # 2) (world0 [7; 3; 1])
      = (Ok col, s') /\
    stdout s' =
      stdout (world0 [7; 3; 1]) ++
      (no_match_notice <$> unmatched [100; 3; 0]%Q ex_pred (1 # 2)).
Proof.
  apply (sample_ecdf_notices [100; 3; 0]%Q ex_pred ex_true (1 # 2)
           (world0 [7; 3; 1])); [simpl; lia | discriminate].
Defined.

(** *** Inputs on which [sample_ecdf] raises *)

Lemma WindowedResampler_Ok_in_range i v (pred truth : list Q) W s x s' j :
  WindowedResampler i v pred truth W s = (Ok x, s') ->
  j ∈ candidates v W pred -> j < length truth.
Proof.
  intros H Hj. unfold WindowedResampler in H.
  apply bind_inv_Ok in H as (cs & s1 & Hcs & _).
  apply fancy_inv in Hcs as (_ & Hl & Hcs).
  apply list_elem_of_lookup in Hj as [k Hk].
  destruct (lookup_lt_is_Some_2 cs k) as [y Hy].
  { apply lookup_lt_Some in Hk. lia. }
  destruct (Hcs k y Hy) as (j' & Hj' & Ht).
  assert (j' = j) as -> by congruence. by apply lookup_lt_Some in Ht.
Qed.

Lemma sample_ecdf_loop_raises (obs pred truth : list Q) W n :
  forall a acc s i v j,
    a <= i < a + n -> obs !! i = Some v ->
    j ∈ candidates v W pred -> length truth <= j ->
    exists e,
      fst (for_each (seq a n) (sample_ecdf_body obs pred truth W) acc s) = Raise e.
Proof.
  induction n as [|n IH]; intros a acc s i v j Hi Hv Hj Hbad; [lia|]. simpl.
  destruct (sample_ecdf_body obs pred truth W a acc s) as [[acc1|e] s1] eqn:Hb.
  - erewrite bind_Ok by exact Hb.
    apply sample_ecdf_body_inv in Hb as (v' & x & Hv' & Hx & _).
    destruct (decide (i = a)) as [->|Hne].
    + assert (v' = v) as -> by congruence.
      pose proof (WindowedResampler_Ok_in_range _ _ _ _ _ _ _ _ _ Hx Hj). lia.
    + apply (IH (S a) acc1 s1 i v j); [lia | done..].
  - erewrite bind_Raise by exact Hb. by exists e.
Qed.

(** X9. The true column is indexed with the candidates of the predicted column.
    If some observed realization has a candidate at or beyond the end of the
    true column (the predicted column is longer than the true one),
    [sample_ecdf] raises and returns no samples. *)
Theorem sample_ecdf_candidate_out_of_range_raises (obs pred truth : list Q) W s i v j :
  obs !! i = Some v ->
  j ∈ candidates v W pred -> length truth <= j ->
  exists e, fst (sample_ecdf obs pred truth W s) = Raise e.
Proof.
  intros Hv Hj Hbad. unfold sample_ecdf, for_range.
  apply (sample_ecdf_loop_raises obs pred truth W (length obs) 0 _ s i v j);
    try done.
  apply lookup_lt_Some in Hv. lia.
Qed.

Lemma sample_ecdf_candidate_out_of_range_raises_witness :
  exists e,
    fst (sample_ecdf [1; 5]%Q ex_pred [10; 20]%Q (1 # 2) (world0 [0; 0])) = Raise e.
Proof.
  apply (sample_ecdf_candidate_out_of_range_raises [1; 5]%Q ex_pred [10; 20]%Q
           (1 # 2) (world0 [0; 0]) 1 5%Q 4).
  - reflexivity.
  - vm_compute. left.
  - simpl. lia.
Defined.

Lemma sample_ecdf_empty_truth_run v (obs pred : list Q) W s :
  sample_ecdf (v :: obs) pred [] W s =
    match candidates v W pred with
    | [] => (Raise ValueError,
             World (tape s) (pos s) (stdout s ++ [no_match_notice 0]))
    | _ :: _ => (Raise IndexError, s)
    end.
Proof.
  assert (WindowedResampler 0 v pred [] W s =
          match candidates v W pred with
          | [] => (Raise ValueError,
                   World (tape s) (pos s) (stdout s ++ [no_match_notice 0]))
          | _ :: _ => (Raise IndexError, s)
          end) as Hstep.
  { unfold WindowedResampler. by destruct (candidates v W pred). }
  unfold sample_ecdf, for_range. simpl.
  destruct (candidates v W pred) as [|j l].
  - apply bind_Raise. unfold sample_ecdf_body.
    erewrite bind_Ok by (by apply getitem_Ok). by apply bind_Raise.
  - apply bind_Raise. unfold sample_ecdf_body.
    erewrite bind_Ok by (by apply getitem_Ok). by apply bind_Raise.
Qed.

(** X10. With an empty true column and at least one observed realization,
    [sample_ecdf] raises at the first realization without taking a draw:
    [IndexError] from the indexing when that realization has a candidate,
    [ValueError] from [np.random.choice(0, 1)] when it has none. *)
Theorem sample_ecdf_empty_truth_raises v (obs pred : list Q) W s :
  fst (sample_ecdf (v :: obs) pred [] W s) =
    Raise (if decide (candidates v W pred = []) then ValueError else IndexError) /\
  pos (snd (sample_ecdf (v :: obs) pred [] W s)) = pos s.
Proof.
  rewrite sample_ecdf_empty_truth_run.
  by destruct (candidates v W pred).
Qed.

(** ** Further properties of [compute_default_tol] *)

(** X11. Every default tolerance is non-negative, so the windows it defines are
    never empty intervals. *)
Theorem default_tolerances_nonnegative m s :
  0 < nrows m ->
  exists Ws,
    compute_default_tol m s = (Ok Ws, s) /\
    forall w, w ∈ Ws -> (0 <= w)%Q.
Proof.
  intros HN. destruct (compute_default_tol_Ok m s HN) as (Ws & Hrun & Hl & Hp).
  exists Ws. split; [done|]. intros w Hw.
  apply list_elem_of_lookup in Hw as [p Hw].
  pose proof (lookup_lt_Some _ _ _ Hw) as Hlt. rewrite Hl in Hlt.
  rewrite Hp in Hw by done. inversion Hw; subst.
  destruct (col_min_spec m p HN) as [(r & Hr & E) _].
  destruct (col_max_spec m p HN) as [_ Hhi].
  specialize (Hhi r Hr). rewrite E in Hhi. unfold rangefraction. lra.
Qed.

Lemma default_tolerances_nonnegative_witness :
  exists Ws,
    compute_default_tol ex_pred2 (world0 []) = (Ok Ws, world0 []) /\
    forall w, w ∈ Ws -> (0 <= w)%Q.
Proof.
  apply (default_tolerances_nonnegative ex_pred2 (world0 [])). simpl. lia.
Defined.

(** ** Further properties of [EmpiricalPosteriorSampling] *)

(** X12. For inputs of consistent shapes every posterior sample of parameter [c]
    is one of the true test-set values of parameter [c], and the run takes
    exactly one draw per observed realization and parameter. *)
Theorem posterior_samples_are_true_values obs pred truth Ws s :
  0 < nrows pred -> nrows truth = nrows pred ->
  ncols pred = ncols obs -> ncols truth = ncols obs ->
  match Ws with Some l => length l = ncols obs | None => True end ->
  exists m s',
    EmpiricalPosteriorSampling obs pred truth Ws s = (Ok m, s') /\
    (forall r c, r < nrows obs -> c < ncols obs -> cell m r c ∈ column truth c) /\
    pos s' = pos s + ncols obs * nrows obs /\ tape s' = tape s.
Proof.
  intros HN HN' HP HP' HW.
  assert (exists l, length l = ncols obs /\
            EmpiricalPosteriorSampling obs pred truth Ws s =
            EmpiricalPosteriorSampling obs pred truth (Some l) s)
    as (l & Hl & ->).
  { destruct Ws as [l|]; [by exists l|].
    destruct (EmpiricalPosteriorSampling_None obs pred truth s HN)
      as (l & Hl & _ & E).
    exists l. split; [congruence | done]. }
  rewrite EmpiricalPosteriorSampling_Some.
  destruct (sampling_loop_total obs pred truth l (length l) 0
              (np_zeros_like_shape obs) s) as (m & s' & H);
    try done; try (simpl; lia).
  exists m, s'. split; [done|].
  apply sampling_loop_inv in H as (_ & _ & Ht & Hpos & _ & Hin); try done.
  split; [|split; [lia | done]].
  intros r c Hr Hc.
  destruct (Hin c) as (w & t & col & t' & _ & _ & Hrun & Hlen & Hcell); [lia|].
  apply sample_ecdf_inv in Hrun as (_ & _ & _ & Hmem).
  rewrite Hcell. apply Hmem.
  destruct (lookup_lt_is_Some_2 col r) as [x Hx]; [lia|].
  rewrite (nth_lookup_Some _ _ _ _ Hx). by apply list_elem_of_lookup_2 in Hx.
Qed.

Lemma posterior_samples_are_true_values_witness :
  exists m s',
    EmpiricalPosteriorSampling ex_obs2 ex_pred2 ex_true2 None (world0 [7; 3; 4; 4])
      = (Ok m, s') /\
    (forall r c, r < nrows ex_obs2 -> c < ncols ex_obs2 ->
       cell m r c ∈ column ex_true2 c) /\
    pos s' = pos (world0 [7; 3; 4; 4]) + ncols ex_obs2 * nrows ex_obs2 /\
    tape s' = tape (world0 [7; 3; 4; 4]).
Proof.
  apply (posterior_samples_are_true_values ex_obs2 ex_pred2 ex_true2 None
           (world0 [7; 3; 4; 4])); simpl; first [lia | reflexivity | exact I].
Defined.

Lemma sampling_loop_stdout obs pred truth Ws n :
  forall a acc s m s',
    nrows acc = nrows obs -> ncols acc = ncols obs ->
    for_each (seq a n) (sampling_body obs pred truth Ws) acc s = (Ok m, s') ->
    stdout s' =
      stdout s ++
      concat ((fun c =>
                 sampling_header c ::
                 (no_match_notice <$>
                    unmatched (column obs c) (column pred c) (nth c Ws 0%Q)))
              <$> seq a n).
Proof.
  induction n as [|n IH]; intros a acc s m s' Hr Hc H; simpl in H.
  - inversion H; subst. simpl. by rewrite app_nil_r.
  - apply bind_inv_Ok in H as (acc1 & s1 & Hb & H).
    apply sampling_body_inv in Hb as (w & col & Hw & Hcol & _ & ->); try done.
    apply IH in H; try done.
    unfold sample_ecdf, for_range in Hcol.
    apply sample_ecdf_loop_stdout in Hcol. simpl in Hcol.
    rewrite H, Hcol. simpl. rewrite (nth_lookup_Some _ _ _ _ Hw).
    unfold unmatched, sampling_header. by rewrite <- !app_assoc.
Qed.

(** X13. What a run on inputs of consistent shapes prints, with caller-supplied
    tolerances: for each parameter in order the line announcing it, followed
    by the notices of its realizations without candidate. A notice names the
    realization only; the parameter it belongs to is the one announced last
    before it. *)
Theorem sampling_prints_headers_and_notices obs pred truth (Ws : list Q) s :
  0 < nrows pred -> nrows truth = nrows pred ->
  ncols pred = ncols obs -> ncols truth = ncols obs ->
  length Ws = ncols obs ->
  exists m s',
    EmpiricalPosteriorSampling obs pred truth (Some Ws) s = (Ok m, s') /\
    stdout s' =
      stdout s ++
      concat ((fun c =>
                 sampling_header c ::
                 (no_match_notice <$>
                    unmatched (column obs c) (column pred c) (nth c Ws 0%Q)))
              <$> seq 0 (ncols obs)).
Proof.
  intros HN HN' HP HP' HW. rewrite EmpiricalPosteriorSampling_Some.
  destruct (sampling_loop_total obs pred truth Ws (length Ws) 0
              (np_zeros_like_shape obs) s) as (m & s' & H);
    try done; try (simpl; lia).
  exists m, s'. split; [done|].
  apply sampling_loop_stdout in H; try done. by rewrite <- HW.
Qed.

Lemma sampling_prints_headers_and_notices_witness :
  exists m s',
    EmpiricalPosteriorSampling ex_obs2 ex_pred2 ex_true2
      (Some [1 # 5; 1 # 5]%Q) (world0 [7; 3; 4; 4]) = (Ok m, s') /\
    stdout s' =
      stdout (world0 [7; 3; 4; 4]) ++
      concat ((fun c =>
                 sampling_header c ::
                 (no_match_notice <$>
                    unmatched (column ex_obs2 c) (column ex_pred2 c)
                      (nth c [1 # 5; 1 # 5]%Q 0%Q)))
              <$> seq 0 (ncols ex_obs2)).
Proof.
  apply (sampling_prints_headers_and_notices ex_obs2 ex_pred2 ex_true2
           [1 # 5; 1 # 5]%Q (world0 [7; 3; 4; 4])); simpl; first [lia | reflexivity].
Defined.

(** *** Empty inputs *)

Lemma column_no_rows m c : nrows m = 0 -> column m c = [].
Proof. intros H. unfold column. by rewrite H. Qed.

(** X14. An empty test set (no prior realizations) with at least one observed
    realization and one parameter to sample: the call raises [ValueError]
    without taking a draw, from [np.min] when the tolerances are omitted and
    from [np.random.choice(0, 1)] on the first realization when they are
    supplied. *)
Theorem empty_test_set_raises_ValueError obs pred truth Ws s :
  nrows pred = 0 -> nrows truth = 0 -> 0 < nrows obs ->
  0 < ncols obs -> 0 < ncols pred -> 0 < ncols truth ->
  Ws <> Some [] ->
  fst (EmpiricalPosteriorSampling obs pred truth Ws s) = Raise ValueError /\
  pos (snd (EmpiricalPosteriorSampling obs pred truth Ws s)) = pos s.
Proof.
  intros Hp Ht Ho Hco Hcp Hct HW. destruct Ws as [[|w l]|]; [done| |].
  - assert (sampling_body obs pred truth (w :: l) 0 (np_zeros_like_shape obs) s =
            (Raise ValueError,
             World (tape s) (pos s)
               (stdout s ++ [sampling_header 0; no_match_notice 0]))) as Hb.
    { unfold sampling_body. unfold bind at 1. simpl.
      erewrite bind_Ok by (by apply getcol_Ok).
      erewrite bind_Ok by (by apply getcol_Ok).
      erewrite bind_Ok by (by apply getcol_Ok).
      erewrite bind_Ok by (by apply getitem_Ok).
      apply bind_Raise.
      rewrite (column_no_rows pred 0 Hp), (column_no_rows truth 0 Ht).
      destruct (column obs 0) as [|v obs0] eqn:E.
      { apply (f_equal length) in E. rewrite length_column in E. simpl in E. lia. }
      rewrite sample_ecdf_empty_truth_run. simpl. by rewrite <- app_assoc. }
    rewrite EmpiricalPosteriorSampling_Some. simpl.
    by erewrite bind_Raise by exact Hb.
  - by rewrite EmpiricalPosteriorSampling_None_empty.
Qed.

Lemma empty_test_set_raises_ValueError_witness :
  fst (EmpiricalPosteriorSampling ex_obs2 (of_rows 0 2 []) (of_rows 0 2 [])
         (Some [1 # 5]%Q) (world0 [7])) = Raise ValueError /\
  pos (snd (EmpiricalPosteriorSampling ex_obs2 (of_rows 0 2 []) (of_rows 0 2 [])
              (Some [1 # 5]%Q) (world0 [7]))) = pos (world0 [7]).
Proof.
  apply (empty_test_set_raises_ValueError ex_obs2 (of_rows 0 2 []) (of_rows 0 2 [])
           (Some [1 # 5]%Q) (world0 [7])); simpl; first [lia | discriminate | reflexivity].
Defined.

Lemma sampling_loop_no_obs obs pred truth Ws n :
  forall a acc s,
    nrows obs = 0 -> nrows acc = 0 -> ncols acc = ncols obs ->
    a + n <= length Ws -> a + n <= ncols obs ->
    a + n <= ncols pred -> a + n <= ncols truth ->
    exists m s',
      for_each (seq a n) (sampling_body obs pred truth Ws) acc s = (Ok m, s').
Proof.
  induction n as [|n IH]; intros a acc s Ho Hr Hc HW Hco Hcp Hct; simpl.
  - by eexists _, _.
  - destruct (lookup_lt_is_Some_2 Ws a) as [w Hw]; [lia|].
    assert (exists acc1 s1,
              sampling_body obs pred truth Ws a acc s = (Ok acc1, s1) /\
              nrows acc1 = 0 /\ ncols acc1 = ncols obs) as (acc1 & s1 & Hb & Hr1 & Hc1).
    { eexists _, _. split.
      - unfold sampling_body. unfold bind at 1. simpl.
        erewrite bind_Ok by (apply getcol_Ok; lia).
        erewrite bind_Ok by (apply getcol_Ok; lia).
        erewrite bind_Ok by (apply getcol_Ok; lia).
        erewrite bind_Ok by (by apply getitem_Ok).
        rewrite (column_no_rows obs a Ho).
        erewrite bind_Ok by reflexivity.
        apply setcol_Ok; [lia | by rewrite Hr].
      - done. }
    destruct (IH (S a) acc1 s1) as (m & s' & H); try done; try lia.
    exists m, s'. by erewrite bind_Ok by exact Hb.
Qed.

(** X15. With no observed realization ([Q = 0]) and supplied tolerances, no more
    of them than the three matrices have columns, the call returns the empty
    [0xP] matrix without taking a draw, whatever rows the test set has, none
    included. *)
Theorem no_observations_returns_empty obs pred truth (Ws : list Q) s :
  nrows obs = 0 ->
  length Ws <= ncols obs -> length Ws <= ncols pred -> length Ws <= ncols truth ->
  exists m s',
    EmpiricalPosteriorSampling obs pred truth (Some Ws) s = (Ok m, s') /\
    nrows m = 0 /\ ncols m = ncols obs /\ pos s' = pos s.
Proof.
  intros Ho Hco Hcp Hct. rewrite EmpiricalPosteriorSampling_Some.
  destruct (sampling_loop_no_obs obs pred truth Ws (length Ws) 0
              (np_zeros_like_shape obs) s) as (m & s' & H); try done.
  exists m, s'. split; [done|].
  apply sampling_loop_inv in H as (Hr & Hc & _ & Hpos & _); try done.
  rewrite Ho in Hpos. split; [congruence|]. split; [done | lia].
Qed.

Lemma no_observations_returns_empty_witness :
  exists m s',
    EmpiricalPosteriorSampling (of_rows 0 2 []) (of_rows 0 2 []) ex_true2
      (Some [1 # 5; 0]%Q) (world0 [7]) = (Ok m, s') /\
    nrows m = 0 /\ ncols m = ncols (of_rows 0 2 []) /\ pos s' = pos (world0 [7]).
Proof.
  apply (no_observations_returns_empty (of_rows 0 2 []) (of_rows 0 2 []) ex_true2
           [1 # 5; 0]%Q (world0 [7])); simpl; first [lia | reflexivity].
Defined.

(** ** The subplot numbers of [plot_predictions] and [plot_posteriors] *)

(** X16. With at most nine parameters the number handed to [plt.subplot] for
    parameter [i] is read as cell [i+1] of the grid of [nrows] rows and two
    columns, a cell the grid has. *)
Theorem subplot_numbers_name_the_cells nparams i :
  nparams <= 9 -> i < nparams ->
  subplot_spec (pltnum (subplot_nrows nparams) i) =
    Some (subplot_nrows nparams, 2, i + 1).
Proof.
  intros Hn Hi.
  destruct nparams as [|[|[|[|[|[|[|[|[|[|?]]]]]]]]]]; try lia;
    destruct i as [|[|[|[|[|[|[|[|[|?]]]]]]]]]; try lia; reflexivity.
Qed.

Lemma subplot_numbers_name_the_cells_witness :
  subplot_spec (pltnum (subplot_nrows 5) 4) = Some (subplot_nrows 5, 2, 4 + 1).
Proof. apply (subplot_numbers_name_the_cells 5 4); lia. Defined.

(** X17. The three-digit numbering stops at nine parameters. With ten or more,
    the loop reaches parameter 9, whose number ends in the digits 3 and 0:
    matplotlib reads no cell from it and [plt.subplot] raises; and from
    parameter 9 on no number is read as the cell meant for it. *)
Theorem subplot_numbers_break_at_ten nparams :
  10 <= nparams ->
  subplot_spec (pltnum (subplot_nrows nparams) 9) = None /\
  forall i, 9 <= i ->
    subplot_spec (pltnum (subplot_nrows nparams) i)
      <> Some (subplot_nrows nparams, 2, i + 1).
Proof.
  intros _. split.
  - unfold subplot_spec, pltnum.
    replace (subplot_nrows nparams * 100 + 20 + 1 + 9)
      with ((subplot_nrows nparams * 10 + 3) * 10) by lia.
    destruct (_ && _); [|done]. by rewrite Nat.Div0.mod_mul.
  - intros i Hi. unfold subplot_spec.
    destruct (_ && _); [|done]. simpl. destruct (_ && _); [|done].
    intros E. inversion E as [[H1 H2 H3]].
    pose proof (Nat.mod_upper_bound
                  (pltnum (subplot_nrows nparams) i) 10 ltac:(lia)). lia.
Qed.

Lemma subplot_numbers_break_at_ten_witness :
  subplot_spec (pltnum (subplot_nrows 10) 9) = None /\
  forall i, 9 <= i ->
    subplot_spec (pltnum (subplot_nrows 10) i) <> Some (subplot_nrows 10, 2, i + 1).
Proof. apply (subplot_numbers_break_at_ten 10). lia. Defined.

(** X18. Where the axis labels go, for one to nine parameters. In
    [plot_predictions] it is cell [2*nrows-1], the left cell of the last
    row: the cell of the last parameter when their number is odd, and a cell
    without data when it is even. In [plot_posteriors] it is the cell of the
    last parameter. *)
Theorem label_subplots nparams :
  1 <= nparams <= 9 ->
  subplot_spec (predictions_label_num (subplot_nrows nparams)) =
    Some (subplot_nrows nparams, 2,
          if Nat.even nparams then nparams + 1 else nparams) /\
  subplot_spec (posteriors_label_num (subplot_nrows nparams) nparams) =
    Some (subplot_nrows nparams, 2, nparams).
Proof.
  intros Hn.
  destruct nparams as [|[|[|[|[|[|[|[|[|[|?]]]]]]]]]]; try lia; by split.
Qed.

Lemma label_subplots_witness :
  subplot_spec (predictions_label_num (subplot_nrows 4)) =
    Some (subplot_nrows 4, 2, if Nat.even 4 then 4 + 1 else 4) /\
  subplot_spec (posteriors_label_num (subplot_nrows 4) 4) =
    Some (subplot_nrows 4, 2, 4).
Proof. apply (label_subplots 4). lia. Defined.

(** ** The scree plot of [PriorFalsification] *)

Lemma length_cumsum_from (a : list Q) : forall acc, length (cumsum_from acc a) = length a.
Proof. induction a as [|x a IH]; intros acc; simpl; [done | by rewrite IH]. Qed.

Lemma cumsum_from_lookup (a : list Q) :
  forall acc k, k < length a ->
    exists y, cumsum_from acc a !! k = Some y /\
      (y == acc + qsum (take (S k) a))%Q.
Proof.
  induction a as [|x a IH]; intros acc k Hk; simpl in Hk; [lia|].
  destruct k as [|k]; simpl.
  - exists (acc + x)%Q. split; [done|]. destruct a; simpl; lra.
  - destruct (IH (acc + x)%Q k) as (y & Hy & E); [lia|].
    exists y. split; [done|]. rewrite E. simpl. lra.
Qed.

(** X19. [plt.plot] is given as many abscissae as ordinates exactly when the
    number of components asked for is between 0 and the number of
    cumulative fractions held; a larger or a negative [npcs] gives lists of
    different lengths. *)
Theorem scree_lengths_agree_iff self npcs :
  length (scree_pc self npcs) = length (scree_variance self npcs) <->
  (0 <= scree_n self npcs <= Z.of_nat (length (cumvar self)))%Z.
Proof.
  unfold scree_pc, scree_variance, py_range, slice_to.
  rewrite length_fmap, length_seq, length_app. simpl.
  destruct (Z.ltb_spec (scree_n self npcs) 0); rewrite length_take; lia.
Qed.

(** X20. For an object built by [__init__], the point of the scree curve at
    abscissa [k] is the sum of the first [k] variance fractions; the curve
    starts at 0. *)
Theorem scree_points_are_partial_sums ratios shape1 npcs k :
  (Z.of_nat k <= scree_n (init_attributes ratios shape1) npcs
               <= Z.of_nat (length ratios))%Z ->
  scree_pc (init_attributes ratios shape1) npcs !! k = Some (Z.of_nat k) /\
  exists y,
    scree_variance (init_attributes ratios shape1) npcs !! k = Some y /\
    (y == qsum (take k ratios))%Q.
Proof.
  intros Hk. split.
  - unfold scree_pc, py_range. rewrite list_lookup_fmap, lookup_seq_lt by lia. done.
  - unfold scree_variance, slice_to.
    destruct (Z.ltb_spec (scree_n (init_attributes ratios shape1) npcs) 0); [lia|].
    destruct k as [|k]; simpl.
    + exists 0%Q. by split.
    + rewrite lookup_take_lt by lia.
      destruct (cumsum_from_lookup ratios 0%Q k) as (y & Hy & E); [lia|].
      exists y. split; [done|]. rewrite E. lra.
Qed.

Lemma scree_points_are_partial_sums_witness :
  scree_pc (init_attributes [1 # 2; 1 # 4; 1 # 4]%Q 3) None !! 2 = Some (Z.of_nat 2) /\
  exists y,
    scree_variance (init_attributes [1 # 2; 1 # 4; 1 # 4]%Q 3) None !! 2 = Some y /\
    (y == qsum (take 2 [1 # 2; 1 # 4; 1 # 4]%Q))%Q.
Proof.
  apply (scree_points_are_partial_sums [1 # 2; 1 # 4; 1 # 4]%Q 3 None 2).
  simpl. lia.
Defined.
